(** * Vault-backed storage and the HTTP-01 responder of lego

    A shallow embedding of
      - cmd/accounts_storage_vault.go  (AccountsStorage, loadPrivateKey,
        tryRecoverRegistration),
      - the Vault certificates storage (CertificatesStorage),
      - the http01 ProviderServer.

    Go strings and byte slices are both byte sequences; they are modelled as
    [string] and told apart only where Go tells them apart (the dynamic type
    of an [interface{}] value).  [log.Fatalf] and run-time panics end the
    process; both are outcomes of the monad [M] below. *)

From Stdlib Require Import String Ascii List Bool Arith NArith Lia.
From stdpp Require Import base option strings gmap list.

Import ListNotations.
Local Open Scope string_scope.

(** ** Go values and results *)

(** A Go [error]: its message. *)
Definition error := string.

(** A Go [interface{}] as it occurs in the payload of a Vault secret. *)
#[warnings="-register-all"]
Inductive value : Type :=
| VBytes (b : string)               (* []byte *)
| VString (s : string)              (* string *)
| VMap (m : gmap string value).     (* map[string]interface{} *)

(** [x.([]byte)], [x.(string)], [x.(map[string]interface{})] on the result of
    a map index: a missing key yields the nil interface, on which every
    single-value type assertion panics. *)
Definition assert_bytes (x : option value) : option string :=
  match x with Some (VBytes b) => Some b | _ => None end.
Definition assert_string (x : option value) : option string :=
  match x with Some (VString s) => Some s | _ => None end.
Definition assert_map (x : option value) : option (gmap string value) :=
  match x with Some (VMap m) => Some m | _ => None end.

(** [base64.StdEncoding.EncodeToString], the form [encoding/json] gives a
    [[]byte]. *)
Definition base64_alphabet : string :=
  "ABCDEFGHIJKLMNOPQRSTUVWXYZabcdefghijklmnopqrstuvwxyz0123456789+/".

Definition base64_char (n : N) : ascii :=
  match String.get (N.to_nat (n mod 64)) base64_alphabet with
  | Some c => c
  | None => "="%char
  end.

Fixpoint base64_encode (s : string) : string :=
  match s with
  | EmptyString => EmptyString
  | String a EmptyString =>
      let n := (N_of_ascii a * 65536)%N in
      String (base64_char (n / 262144)) (String (base64_char (n / 4096)) "==")
  | String a (String b EmptyString) =>
      let n := (N_of_ascii a * 65536 + N_of_ascii b * 256)%N in
      String (base64_char (n / 262144))
        (String (base64_char (n / 4096)) (String (base64_char (n / 64)) "="))
  | String a (String b (String c rest)) =>
      let n := (N_of_ascii a * 65536 + N_of_ascii b * 256 + N_of_ascii c)%N in
      String (base64_char (n / 262144))
        (String (base64_char (n / 4096))
           (String (base64_char (n / 64))
              (String (base64_char n) (base64_encode rest))))
  end.

(** What a payload looks like once it has travelled to Vault and back: the
    client marshals the map to JSON for the request and unmarshals the JSON
    of the response into [map[string]interface{}], so a [[]byte] comes back
    as the string of its base64 text, a string as itself, a map as a map. *)
Fixpoint json_transport (v : value) : value :=
  match v with
  | VBytes b => VString (base64_encode b)
  | VString s => VString s
  | VMap m => VMap (json_transport <$> m)
  end.

(** [api.Secret]: only its [Data] field is used. *)
Record Secret : Type := { Data : gmap string value }.

(** How a call ends: it returns, the process exits through [log.Fatalf], or
    the goroutine panics. *)
Inductive result (A : Type) : Type :=
| Ok (a : A)
| Fatal (msg : string)
| Panic (msg : string).
Arguments Ok {A} a.
Arguments Fatal {A} msg.
Arguments Panic {A} msg.

Definition nil_deref : string :=
  "invalid memory address or nil pointer dereference".
Definition bad_assert : string := "interface conversion".

(** ** Domain types appearing in the sources *)

Inductive KeyType : Type := EC256 | EC384 | RSA2048 | RSA4096 | RSA8192.

(** [crypto.PrivateKey]: an RSA or an elliptic-curve key, with its material. *)
Inductive PrivateKey : Type :=
| RSAKey (material : string)
| ECKey (material : string).

(** [pem.Block]. *)
Record pemBlock : Type := { Type_ : string; Bytes : string }.

(** [registration.Resource]; [Status] stands for [Body.Status]. *)
Record RegistrationResource : Type := { URI : string; Status : string }.

(** [Account]; [key] is unexported and so never part of the JSON record. *)
Record Account : Type := {
  Email : string;
  Registration : option RegistrationResource;
  key : option PrivateKey
}.

(** [certificate.Resource]. *)
Record Resource : Type := {
  Domain : string;
  CertURL : string;
  CertStableURL : string;
  PrivateKey_ : string;
  Certificate : string;
  IssuerCertificate : string
}.

(** [cli.Context]: the global flags and the application version the storage
    reads. *)
Record Context : Type := { server : string; version : string }.

(** [lego.Config], as [tryRecoverRegistration] fills it. *)
Record Config : Type := {
  User : Account;
  CADirURL : string;
  UserAgent : string
}.

Record AccountsStorage : Type := { userID : string; ctx : Context }.

#[global] Instance KeyType_eq_dec : EqDecision KeyType.
Proof. solve_decision. Defined.
#[global] Instance PrivateKey_eq_dec : EqDecision PrivateKey.
Proof. solve_decision. Defined.
#[global] Instance RegistrationResource_eq_dec : EqDecision RegistrationResource.
Proof. solve_decision. Defined.
#[global] Instance Account_eq_dec : EqDecision Account.
Proof. solve_decision. Defined.
#[global] Instance Resource_eq_dec : EqDecision Resource.
Proof. solve_decision. Defined.

(** ** The world outside the process *)

(** Calls that leave the process, in the order they were made. *)
Inductive event : Type :=
| EvRead (path : string)
| EvWrite (path : string) (data : gmap string value)
| EvGenerateKey (kt : KeyType)
| EvNewClient (cfg : Config)
| EvResolveAccountByKey (cfg : Config).

Record world : Type := {
  kv : gmap string (gmap string value);   (* Vault: path -> payload *)
  draws : nat;                            (* keys generated so far *)
  trace : list event
}.

(** The collaborators that are not part of the sources: the health of the
    Vault connection, the JSON and PEM/x509 codecs, the key generator and the
    ACME authority. A Go pair [(v, err)] is a pair of options. *)
Record Externals : Type := {
  client_Get : option error;                         (* s.Client.Get() *)
  read_fails : string -> option error;               (* Logical().Read *)
  write_fails : string -> option error;              (* Logical().Write *)
  json_MarshalResource : Resource -> string * option error;
  json_UnmarshalResource : string -> Resource * option error;
  json_MarshalAccount : Account -> string * option error;
  json_UnmarshalAccount : string -> Account * option error;
  GeneratePrivateKey : KeyType -> nat -> option PrivateKey * option error;
  PEMBlock : option PrivateKey -> option pemBlock;
  pem_EncodeToMemory : pemBlock -> string;
  pem_Decode : string -> option pemBlock;
  ParsePKCS1PrivateKey : string -> option PrivateKey * option error;
  ParseECPrivateKey : string -> option PrivateKey * option error;
  lego_NewClient : Config -> option error;
  ResolveAccountByKey : Config -> option RegistrationResource * option error
}.

(** ** The monad of the storage code: state and abrupt termination *)

Definition M (A : Type) : Type := world -> result A * world.

#[global] Instance M_ret : MRet M := fun A (a : A) w => (Ok a, w).
#[global] Instance M_bind : MBind M := fun A B (k : A -> M B) (m : M A) w =>
  match m w with
  | (Ok a, w') => k a w'
  | (Fatal msg, w') => (Fatal msg, w')
  | (Panic msg, w') => (Panic msg, w')
  end.

Definition log_Fatalf {A} (msg : string) : M A := fun w => (Fatal msg, w).
Definition panic {A} (msg : string) : M A := fun w => (Panic msg, w).
Definition emit (e : event) : M unit :=
  fun w => (Ok tt, {| kv := kv w; draws := draws w; trace := trace w ++ [e] |}).

Definition lift {A} (r : result A) : M A := fun w => (r, w).

Definition lookup_kv (path : string) : M (option (gmap string value)) :=
  fun w => (Ok (kv w !! path), w).
Definition store_kv (path : string) (data : gmap string value) : M unit :=
  fun w => (Ok tt, {| kv := <[path := data]> (kv w);
                      draws := draws w; trace := trace w |}).
Definition next_draw : M nat :=
  fun w => (Ok (draws w),
            {| kv := kv w; draws := S (draws w); trace := trace w |}).

(** ** The Vault logical client

    A path-addressable store: [Write] replaces the payload of a path, [Read]
    returns the payload last written there, in the form the JSON of the
    response gives it. [Read] of a path that holds nothing returns a nil
    secret and a nil error; [ExistsFile] and [GetPrivateKey] test for exactly
    that. *)

Section Vault.
Variable X : Externals.

Definition Logical_Read (path : string) : M (option Secret * option error) :=
  emit (EvRead path);;
  match read_fails X path with
  | Some err => mret (None, Some err)
  | None =>
    stored ← lookup_kv path;
    mret (Build_Secret <$> (fmap json_transport <$> stored), None)
  end.

Definition Logical_Write (path : string) (data : gmap string value)
  : M (option error) :=
  emit (EvWrite path data);;
  match write_fails X path with
  | Some err => mret (Some err)
  | None => store_kv path data;; mret None
  end.

(** [certcrypto.GeneratePrivateKey]: every call is a fresh draw. *)
Definition certcrypto_GeneratePrivateKey (keyType : KeyType)
  : M (option PrivateKey * option error) :=
  emit (EvGenerateKey keyType);;
  n ← next_draw;
  mret (GeneratePrivateKey X keyType n).
End Vault.

(** ** CertificatesStorage *)

Definition certsPath (domain : string) : string :=
  "secret/data/fabio/certs/" +:+ domain.
Definition jsonPath (domain : string) : string :=
  "secret/data/fabio/json/" +:+ domain.

Section CertificatesStorage.
Variable X : Externals.

Definition SaveResource (certRes : Resource) : M unit :=
  let domain := Domain certRes in
  match client_Get X with
  | Some err => log_Fatalf ("vault: client: " +:+ err)
  | None =>
    err ← Logical_Write X (certsPath domain)
            (<["cert" := VBytes (Certificate certRes)]>
             (<["key" := VBytes (PrivateKey_ certRes)]>
              (<["issuer" := VBytes (IssuerCertificate certRes)]> ∅)));
    match err with
    | Some err =>
        log_Fatalf ("Unable to save Certificate for domain " +:+ domain
                    +:+ " " +:+ err)
    | None =>
      let '(jsonBytes, err) := json_MarshalResource X certRes in
      match err with
      | Some err =>
          log_Fatalf ("Unable to marshal CertResource for domain "
                      +:+ domain +:+ " " +:+ err)
      | None =>
        err ← Logical_Write X (jsonPath domain)
                (<["data" := VBytes jsonBytes]> ∅);
        match err with
        | Some err =>
            log_Fatalf ("Unable to save CertResource for domain "
                        +:+ domain +:+ " " +:+ err)
        | None => mret tt
        end
      end
    end
  end.

Definition ReadResource (domain : string) : M Resource :=
  match client_Get X with
  | Some err => log_Fatalf ("vault: client: " +:+ err)
  | None =>
    '(resp, err) ← Logical_Read X (jsonPath domain);
    match err with
    | Some err =>
        log_Fatalf ("Error while loading the meta data for domain "
                    +:+ domain +:+ " " +:+ err)
    | None =>
      match resp with
      | None => panic nil_deref                 (* resp.Data on a nil resp *)
      | Some resp =>
        match assert_bytes (Data resp !! "data") with
        | None => panic bad_assert
        | Some b =>
          let '(resource, err) := json_UnmarshalResource X b in
          match err with
          | Some err =>
              log_Fatalf ("Error while marshaling the meta data for domain "
                          +:+ domain +:+ " " +:+ err)
          | None => mret resource
          end
        end
      end
    end
  end.

Definition ExistsFile (domain extension : string) : M bool :=
  match client_Get X with
  | Some err => log_Fatalf ("vault: client: " +:+ err)
  | None =>
    '(resp, err) ← Logical_Read X (jsonPath domain);
    match err, resp with
    | Some _, _ | None, None => mret false
    | None, Some _ => mret true
    end
  end.

Definition ReadFile (domain extension : string)
  : M (option string * option error) :=
  res ← ReadResource domain;
  if decide (extension = ".crt") then mret (Some (Certificate res), None)
  else if decide (extension = ".key") then mret (Some (PrivateKey_ res), None)
  else mret (None, Some "can't find certificate").
End CertificatesStorage.

(** ** AccountsStorage *)

Definition accountPath (user : string) : string :=
  "secret/data/fabio/account/" +:+ user.
Definition privateKeyPath (user : string) : string :=
  "secret/data/fabio/private_key/" +:+ user.

(** The payload both the account record and the private key are written
    with: [{"data": {"data": s}}]. *)
Definition wrapped (s : string) : gmap string value :=
  <["data" := VMap (<["data" := VString s]> ∅)]> ∅.

(** The configuration [tryRecoverRegistration] builds: the key alone stands
    for the user, the directory URL and the user agent come from the
    context. *)
Definition recoveryConfig (ctx : Context) (privateKey : option PrivateKey)
  : Config :=
  {| User := {| Email := ""; Registration := None; key := privateKey |};
     CADirURL := server ctx;
     UserAgent := "lego-cli/" +:+ version ctx |}.

Section AccountsStorage.
Variable X : Externals.

Definition ExistsAccountFilePath (s : AccountsStorage) : M bool :=
  match client_Get X with
  | Some err => log_Fatalf ("vault: client: " +:+ err)
  | None =>
    '(resp, err) ← Logical_Read X (accountPath (userID s));
    match err, resp with
    | Some _, _ | None, None => mret false
    | None, Some _ => mret true
    end
  end.

Definition GetUserID (s : AccountsStorage) : string := userID s.

Definition Save (s : AccountsStorage) (account : Account) : M (option error) :=
  match client_Get X with
  | Some err => log_Fatalf ("vault: client: " +:+ err)
  | None =>
    let '(jsonBytes, err) := json_MarshalAccount X account in
    match err with
    | Some err => mret (Some err)
    | None => Logical_Write X (accountPath (Email account)) (wrapped jsonBytes)
    end
  end.

Definition tryRecoverRegistration (ctx : Context) (privateKey : option PrivateKey)
  : M (option RegistrationResource * option error) :=
  let config := recoveryConfig ctx privateKey in
  emit (EvNewClient config);;
  match lego_NewClient X config with
  | Some err => mret (None, Some err)
  | None =>
    emit (EvResolveAccountByKey config);;
    let '(reg, err) := ResolveAccountByKey X config in
    match err with
    | Some err => mret (None, Some err)
    | None => mret (reg, None)
    end
  end.

(** [account.Registration == nil || account.Registration.Body.Status == ""] *)
Definition registration_missing (account : Account) : bool :=
  match Registration account with
  | None => true
  | Some reg => bool_decide (Status reg = "")
  end.

Definition LoadAccount (s : AccountsStorage) (privateKey : option PrivateKey)
  : M Account :=
  match client_Get X with
  | Some err => log_Fatalf ("vault: client: " +:+ err)
  | None =>
    '(resp, err) ← Logical_Read X (accountPath (userID s));
    match err with
    | Some err =>
        log_Fatalf ("Error while loading account " +:+ userID s +:+ " " +:+ err)
    | None =>
      match resp with
      | None => panic nil_deref                 (* resp.Data on a nil resp *)
      | Some resp =>
        match assert_map (Data resp !! "data") with
        | None => panic bad_assert
        | Some d =>
          match assert_string (d !! "data") with
          | None => panic bad_assert
          | Some str =>
            let '(account, err) := json_UnmarshalAccount X str in
            match err with
            | Some err =>
                log_Fatalf ("Could not parse file for account " +:+ userID s
                            +:+ " -> " +:+ err)
            | None =>
              let account :=
                {| Email := Email account;
                   Registration := Registration account;
                   key := privateKey |} in
              if registration_missing account then
                '(reg, err) ← tryRecoverRegistration (ctx s) privateKey;
                match err with
                | Some err =>
                    log_Fatalf ("Could not load account for " +:+ userID s
                                +:+ ". Registration is nil -> " +:+ err)
                | None =>
                  let account :=
                    {| Email := Email account;
                       Registration := reg;
                       key := key account |} in
                  err ← Save s account;
                  match err with
                  | Some err =>
                      log_Fatalf ("Could not save account for " +:+ userID s
                                  +:+ ". Registration is nil -> " +:+ err)
                  | None => mret account
                  end
                end
              else mret account
            end
          end
        end
      end
    end
  end.

Definition loadPrivateKey (keyBytes : string)
  : result (option PrivateKey * option error) :=
  match pem_Decode X keyBytes with
  | None => Panic nil_deref                     (* keyBlock.Type on a nil block *)
  | Some keyBlock =>
    if decide (Type_ keyBlock = "RSA PRIVATE KEY") then
      Ok (ParsePKCS1PrivateKey X (Bytes keyBlock))
    else if decide (Type_ keyBlock = "EC PRIVATE KEY") then
      Ok (ParseECPrivateKey X (Bytes keyBlock))
    else Ok (None, Some "unknown private key type")
  end.

Definition GetPrivateKey (s : AccountsStorage) (keyType : KeyType)
  : M (option PrivateKey) :=
  match client_Get X with
  | Some err => log_Fatalf ("vault: client: " +:+ err)
  | None =>
    '(resp, err) ← Logical_Read X (privateKeyPath (userID s));
    match err with
    | Some err =>
        log_Fatalf ("No key found for account " +:+ userID s
                    +:+ ". Generating a key., err: " +:+ err)
    | None =>
      match resp with
      | None =>
        '(privateKey, err) ← certcrypto_GeneratePrivateKey X keyType;
        match err with
        | Some err =>
            log_Fatalf ("Could not generate RSA private account key for account "
                        +:+ userID s +:+ ": " +:+ err)
        | None =>
          match PEMBlock X privateKey with
          | None => panic nil_deref             (* pem.EncodeToMemory(nil) *)
          | Some pemKey =>
            err ← Logical_Write X (privateKeyPath (userID s))
                    (wrapped (pem_EncodeToMemory X pemKey));
            match err with
            | Some err =>
                log_Fatalf ("Could not write private account key for account "
                            +:+ userID s +:+ ": " +:+ err)
            | None => mret privateKey
            end
          end
        end
      | Some resp =>
        match assert_map (Data resp !! "data") with
        | None => panic bad_assert
        | Some d =>
          match assert_string (d !! "data") with
          | None => panic bad_assert
          | Some str =>
            '(privateKey, err) ← lift (loadPrivateKey str);
            match err with
            | Some err =>
                log_Fatalf ("Could not load RSA private key from file "
                            +:+ userID s +:+ ": " +:+ err)
            | None => mret privateKey
            end
          end
        end
      end
    end
  end.
End AccountsStorage.

(** ** The HTTP-01 ProviderServer *)

(** The parts of [http.Request] the handlers read, and the path the mux
    routes on. *)
Record Request : Type := { Host : string; Method : string; URL_Path : string }.

(** [http.ResponseWriter]: the first [Write] sends the header with status
    200 unless a status was sent before; a later [WriteHeader] is ignored.
    [conn_err] is the error every write to the connection meets, if any;
    [head] says that the response answers a HEAD request, whose body the
    server does not send. *)
Record ResponseWriter : Type := {
  header : list (string * string);
  wroteHeader : bool;
  status : nat;
  body : string;
  conn_err : option error;
  head : bool
}.

Definition Header_Add (k v : string) (w : ResponseWriter) : ResponseWriter :=
  {| header := header w ++ [(k, v)]; wroteHeader := wroteHeader w;
     status := status w; body := body w; conn_err := conn_err w;
     head := head w |}.

Definition Header_Set (k v : string) (w : ResponseWriter) : ResponseWriter :=
  {| header := filter (fun h => h.1 ≠ k) (header w) ++ [(k, v)];
     wroteHeader := wroteHeader w;
     status := status w; body := body w; conn_err := conn_err w;
     head := head w |}.

Definition WriteHeader (code : nat) (w : ResponseWriter) : ResponseWriter :=
  if wroteHeader w then w
  else {| header := header w; wroteHeader := true;
          status := code; body := body w; conn_err := conn_err w;
          head := head w |}.

(** [w.Write]: for a HEAD request the server takes the bytes, reports no
    error and sends none of them. *)
Definition Write (b : string) (w : ResponseWriter)
  : option error * ResponseWriter :=
  let w := WriteHeader 200 w in
  if head w then (None, w)
  else
    match conn_err w with
    | Some err => (Some err, w)
    | None => (None, {| header := header w; wroteHeader := wroteHeader w;
                        status := status w; body := body w +:+ b;
                        conn_err := conn_err w; head := head w |})
    end.

(** [http.Error(w, msg, code)]. *)
Definition http_Error (msg : string) (code : nat) (w : ResponseWriter)
  : ResponseWriter :=
  let w := Header_Set "Content-Type" "text/plain; charset=utf-8" w in
  let w := Header_Set "X-Content-Type-Options" "nosniff" w in
  let w := WriteHeader code w in
  (Write (msg +:+ String "010"%char "") w).2.

Definition StatusInternalServerError : nat := 500.
Definition StatusNotFound : nat := 404.
Definition StatusMovedPermanently : nat := 301.
Definition StatusBadRequest : nat := 400.
Definition MethodGet : string := "GET".

Definition HandlerFunc : Type := Request -> ResponseWriter -> ResponseWriter.

(** *** [http.ServeMux]

    The responder registers rooted patterns only (["/"] and the challenge
    paths), so the host-specific patterns of the mux, those that do not start
    with a slash, are left out. *)

Definition ends_in_slash (p : string) : bool :=
  match rev (list_ascii_of_string p) with
  | c :: _ => bool_decide (c = "/"%char)
  | [] => false
  end.

Definition better (path : string) (pat : string) (h : HandlerFunc)
  (acc : option (string * HandlerFunc)) : option (string * HandlerFunc) :=
  if ends_in_slash pat && String.prefix pat path then
    match acc with
    | Some (p, _) =>
        if Nat.ltb (String.length p) (String.length pat) then Some (pat, h)
        else acc
    | None => Some (pat, h)
    end
  else acc.

Definition NotFound : HandlerFunc := fun _ w =>
  http_Error "404 page not found" StatusNotFound w.

(** [mux.handler(host, path)]: the handler registered for exactly the path,
    else the handler of the longest registered pattern that ends in a slash
    and is a prefix of the path, else [NotFound]. *)
Definition mux_handler (m : gmap string HandlerFunc) (path : string)
  : HandlerFunc :=
  match m !! path with
  | Some h => h
  | None =>
      match map_fold (better path) None m with
      | Some (_, h) => h
      | None => NotFound
      end
  end.

(** [mux.HandleFunc]: registering a pattern twice, or the empty pattern,
    panics. *)
Definition mux_HandleFunc (pattern : string) (h : HandlerFunc)
  (m : gmap string HandlerFunc) : result (gmap string HandlerFunc) :=
  if decide (pattern = "") then Panic "http: invalid pattern"
  else match m !! pattern with
       | Some _ => Panic ("http: multiple registrations for " +:+ pattern)
       | None => Ok (<[pattern := h]> m)
       end.

(** The elements of a path: what stands between its slashes. *)
Fixpoint split_slash (p : string) : list string :=
  match p with
  | EmptyString => [EmptyString]
  | String c rest =>
      if bool_decide (c = "/"%char) then EmptyString :: split_slash rest
      else match split_slash rest with
           | seg :: segs => String c seg :: segs
           | [] => [String c EmptyString]
           end
  end.

(** [path.Clean] on a rooted path, element by element: empty elements and
    [.] are dropped, [..] takes back the element before it, if any. The
    second argument holds the elements kept so far, the last one first. *)
Fixpoint clean_elements (elems kept : list string) : list string :=
  match elems with
  | [] => kept
  | e :: elems =>
      if decide (e = "") then clean_elements elems kept
      else if decide (e = ".") then clean_elements elems kept
      else if decide (e = "..") then clean_elements elems (tail kept)
      else clean_elements elems (e :: kept)
  end.

Fixpoint join_slash (elems : list string) : string :=
  match elems with
  | [] => ""
  | e :: elems => "/" +:+ e +:+ join_slash elems
  end.

Definition path_Clean (p : string) : string :=
  match rev (clean_elements (split_slash p) []) with
  | [] => "/"
  | elems => join_slash elems
  end.

(** [cleanPath]: the canonical form of a request path; a trailing slash
    survives the cleaning. *)
Definition cleanPath (p : string) : string :=
  if decide (p = "") then "/"
  else
    let p := if String.prefix "/" p then p else "/" +:+ p in
    let np := path_Clean p in
    if ends_in_slash p && negb (bool_decide (np = "/")) then
      if Nat.eqb (String.length p) (String.length np + 1) && String.prefix np p
      then p else np +:+ "/"
    else np.

(** [mux.shouldRedirectRLocked]: the path is not registered, the path with a
    slash added is. *)
Definition shouldRedirect (m : gmap string HandlerFunc) (path : string) : bool :=
  match m !! path with
  | Some _ => false
  | None =>
      if decide (path = "") then false
      else match m !! (path +:+ "/") with
           | Some _ => negb (ends_in_slash path)
           | None => false
           end
  end.

(** What [mux.Handler] decides for a request: a handler, or a redirect. *)
Inductive route : Type :=
| Route (h : HandlerFunc)
| RedirectTo (location : string).

(** [mux.Handler]: a CONNECT request is routed on its path as it is; for any
    other the path is cleaned first, and a path that was not clean is
    answered with a redirect to the clean one. *)
Definition mux_Handler (m : gmap string HandlerFunc) (r : Request) : route :=
  if decide (Method r = "CONNECT") then
    if shouldRedirect m (URL_Path r) then RedirectTo (URL_Path r +:+ "/")
    else Route (mux_handler m (URL_Path r))
  else
    let path := cleanPath (URL_Path r) in
    if shouldRedirect m path then RedirectTo (path +:+ "/")
    else if decide (path = URL_Path r) then Route (mux_handler m (URL_Path r))
    else RedirectTo path.

(** [htmlEscape], for the body of a redirect. *)
Fixpoint htmlEscape (u : string) : string :=
  match u with
  | EmptyString => EmptyString
  | String c rest =>
      (if bool_decide (c = "&"%char) then "&amp;"
       else if bool_decide (c = "<"%char) then "&lt;"
       else if bool_decide (c = ">"%char) then "&gt;"
       else if bool_decide (c = "034"%char) then "&#34;"
       else if bool_decide (c = "'"%char) then "&#39;"
       else String c EmptyString) +:+ htmlEscape rest
  end.

(** [http.RedirectHandler(url, code)], that is [http.Redirect]; the
    percent-escaping of the location is left out. *)
Definition RedirectHandler (url : string) (code : nat) : HandlerFunc :=
  fun r w =>
    let hadCT := bool_decide (Exists (fun h => h.1 = "Content-Type") (header w)) in
    let w := Header_Set "Location" url w in
    let w := if negb hadCT
                && (bool_decide (Method r = "GET")
                    || bool_decide (Method r = "HEAD"))
             then Header_Set "Content-Type" "text/html; charset=utf-8" w
             else w in
    let w := WriteHeader code w in
    if negb hadCT && bool_decide (Method r = "GET") then
      (Write ("<a href=" +:+ String "034"%char (htmlEscape url)
              +:+ String "034"%char ">Moved Permanently</a>."
              +:+ String "010"%char (String "010"%char "")) w).2
    else w.

(** [mux.ServeHTTP] under the server: the response writer is the one of the
    request, a request for [*] is refused, any other goes to what
    [mux.Handler] decides. *)
Definition response_to (r : Request) (w : ResponseWriter) : ResponseWriter :=
  {| header := header w; wroteHeader := wroteHeader w;
     status := status w; body := body w; conn_err := conn_err w;
     head := bool_decide (Method r = "HEAD") |}.

Definition ServeHTTP (m : gmap string HandlerFunc) (r : Request)
  (w : ResponseWriter) : ResponseWriter :=
  let w := response_to r w in
  if decide (URL_Path r = "*") then
    if decide (Method r = "OPTIONS")
    then WriteHeader 200 (Header_Set "Content-Length" "0" w)
    else WriteHeader StatusBadRequest (Header_Set "Connection" "close" w)
  else
    match mux_Handler m r with
    | Route h => h r w
    | RedirectTo url => RedirectHandler url StatusMovedPermanently r w
    end.

(** A response writer on a fresh connection. *)
Definition fresh (err : option error) : ResponseWriter :=
  {| header := []; wroteHeader := false; status := 0; body := "";
     conn_err := err; head := false |}.

(** [net.Listener]: the address it was asked to listen on, and whether it
    has been closed. *)
Record Listener : Type := { laddr : string; closed : bool }.

Record ProviderServer : Type := {
  iface : string;
  port : string;
  listener : option Listener;
  mux : gmap string HandlerFunc
}.

(** Modelled from the spec: [ChallengePath] of the http01 package, the
    well-known path of the ACME HTTP challenge followed by the token. *)
Definition ChallengePath (token : string) : string :=
  "/.well-known/acme-challenge/" +:+ token.

(** [strings.Contains(s, c)] for a single byte [c]. *)
Definition contains_byte (c : ascii) (s : string) : bool :=
  existsb (fun x => bool_decide (x = c)) (list_ascii_of_string s).

(** [net.JoinHostPort]: a host holding a colon or a percent sign is put in
    square brackets. *)
Definition JoinHostPort (host port : string) : string :=
  if contains_byte ":"%char host || contains_byte "%"%char host
  then "[" +:+ host +:+ "]:" +:+ port
  else host +:+ ":" +:+ port.

Definition GetAddress (s : ProviderServer) : string :=
  JoinHostPort (iface s) (port s).

(** The handler of ["/"] installed by the constructor. *)
Definition root_handler : HandlerFunc := fun r w =>
  let w := Header_Add "Content-Type" "text/plain" w in
  let '(err, w) := Write "OK" w in
  match err with
  | Some err => http_Error err StatusInternalServerError w
  | None => w
  end.

(** The handler [serve] installs for one challenge. *)
Definition challenge_handler (domain keyAuth : string) : HandlerFunc := fun r w =>
  if String.prefix domain (Host r) && bool_decide (Method r = MethodGet) then
    let w := Header_Add "Content-Type" "text/plain" w in
    let '(err, w) := Write keyAuth w in
    match err with
    | Some err => http_Error err StatusInternalServerError w
    | None => w
    end
  else
    let '(err, w) := Write "TEST" w in
    match err with
    | Some err => http_Error err StatusInternalServerError w
    | None => w
    end.

Section ProviderServer.
(** [net.Listen("tcp", addr)]: the error it meets, if any. *)
Variable net_Listen : string -> option error.

(** The constructor up to the start of the serving goroutine. *)
Definition NewProviderServer (iface port : string) : result ProviderServer :=
  let s := {| iface := iface; port := port; listener := None; mux := ∅ |} in
  match net_Listen (GetAddress s) with
  | Some err =>
      Fatal ("could not start HTTP server for challenge -> " +:+ err)
  | None =>
    let l := {| laddr := GetAddress s; closed := false |} in
    match mux_HandleFunc "/" root_handler (mux s) with
    | Ok m => Ok {| iface := iface; port := port;
                    listener := Some l; mux := m |}
    | Fatal msg => Fatal msg
    | Panic msg => Panic msg
    end
  end.
End ProviderServer.

(** [Present] on the caller's side: the port default; the registration
    itself is [serve], run by a goroutine of its own. *)
Definition Present (s : ProviderServer) (domain token keyAuth : string)
  : ProviderServer :=
  if decide (port s = "") then
    {| iface := iface s; port := "80"; listener := listener s; mux := mux s |}
  else s.

Definition serve (s : ProviderServer) (domain token keyAuth : string)
  : result ProviderServer :=
  let path := ChallengePath token in
  match mux_HandleFunc path (challenge_handler domain keyAuth) (mux s) with
  | Ok m => Ok {| iface := iface s; port := port s;
                  listener := listener s; mux := m |}
  | Fatal msg => Fatal msg
  | Panic msg => Panic msg
  end.

(** ** The serving goroutine, the connections and [CleanUp] as interleaved
    threads

    The goroutine started by the constructor runs [httpServer.Serve] and then
    sends on the unbuffered channel [done]. [Serve] accepts connections and
    hands each to a goroutine of its own, which answers the request of the
    connection (keep-alives are off: one request each) whether or not the
    listener is still open and [Serve] still running. [CleanUp] tests the
    listener for nil, closes it and receives from [done]. A send on an
    unbuffered channel and the matching receive happen as one step. *)

Inductive serve_pc : Type :=
| NoServer        (* the constructor was not used: no goroutine *)
| Serving         (* inside httpServer.Serve *)
| Signalling      (* Serve has returned; blocked in [s.done <- true] *)
| Exited.

Inductive cleanup_pc : Type :=
| Idle            (* no call of CleanUp in progress, none has returned *)
| AtClose         (* past the nil test, before s.listener.Close() *)
| AtRecv          (* blocked in [<-s.done] *)
| Returned.       (* the last call has returned nil *)

Record threads : Type := {
  lst : option Listener;
  goroutine : serve_pc;
  caller : cleanup_pc;
  pending : nat;    (* connections accepted and not answered yet, each with
                       a goroutine of its own *)
  served : nat      (* connections whose request has been answered *)
}.

(** The connections accepted so far. *)
Definition accepted (t : threads) : nat := served t + pending t.

Inductive action : Type :=
| AAccept         (* Serve accepts a connection and starts its goroutine *)
| AAnswer         (* the goroutine of a connection answers and ends *)
| AServeClosed    (* Serve returns: use of closed network connection *)
| AServeFails     (* Serve returns with another error, which is logged *)
| ACleanUpCall    (* CleanUp is called and tests s.listener == nil *)
| ACleanUpClose   (* s.listener.Close() *)
| ADone.          (* s.done <- true meets <-s.done *)

Definition is_open (l : option Listener) : bool :=
  match l with Some l => negb (closed l) | None => false end.
Definition is_closed (l : option Listener) : bool :=
  match l with Some l => closed l | None => false end.

Definition step (a : action) (t : threads) : option threads :=
  match a, goroutine t, caller t with
  | AAccept, Serving, _ =>
      if is_open (lst t)
      then Some {| lst := lst t; goroutine := Serving; caller := caller t;
                   pending := S (pending t); served := served t |}
      else None
  | AAnswer, _, _ =>
      match pending t with
      | S n => Some {| lst := lst t; goroutine := goroutine t;
                       caller := caller t;
                       pending := n; served := S (served t) |}
      | O => None
      end
  | AServeClosed, Serving, _ =>
      if is_closed (lst t)
      then Some {| lst := lst t; goroutine := Signalling; caller := caller t;
                   pending := pending t; served := served t |}
      else None
  | AServeFails, Serving, _ =>
      Some {| lst := lst t; goroutine := Signalling; caller := caller t;
              pending := pending t; served := served t |}
  | ACleanUpCall, _, (Idle | Returned) =>
      match lst t with
      | None => Some {| lst := None; goroutine := goroutine t;
                        caller := Returned;
                        pending := pending t; served := served t |}
      | Some _ => Some {| lst := lst t; goroutine := goroutine t;
                          caller := AtClose;
                          pending := pending t; served := served t |}
      end
  | ACleanUpClose, _, AtClose =>
      match lst t with
      | Some l => Some {| lst := Some {| laddr := laddr l; closed := true |};
                          goroutine := goroutine t; caller := AtRecv;
                          pending := pending t; served := served t |}
      | None => None
      end
  | ADone, Signalling, AtRecv =>
      Some {| lst := lst t; goroutine := Exited; caller := Returned;
              pending := pending t; served := served t |}
  | _, _, _ => None
  end.

Fixpoint run (acts : list action) (t : threads) : option threads :=
  match acts with
  | [] => Some t
  | a :: acts => match step a t with
                 | Some t' => run acts t'
                 | None => None
                 end
  end.

(** The threads right after construction: the listener is bound and the
    goroutine is in [Serve]. A [ProviderServer] made without the constructor
    has neither. *)
Definition started (s : ProviderServer) : threads :=
  {| lst := listener s;
     goroutine := match listener s with Some _ => Serving | None => NoServer end;
     caller := Idle;
     pending := 0;
     served := 0 |}.

(** ** Concrete collaborators, for running the definitions

    A line-oriented record format stands in for JSON, a one-letter tag for
    the PEM armour. *)

Fixpoint split_line (s : string) : string * string :=
  match s with
  | EmptyString => ("", "")
  | String c rest =>
      if bool_decide (c = "010"%char) then ("", rest)
      else let '(a, b) := split_line rest in (String c a, b)
  end.

Definition nl : string := String "010"%char "".

Definition demo_MarshalResource (r : Resource) : string * option error :=
  (Domain r +:+ nl +:+ CertURL r +:+ nl +:+ CertStableURL r +:+ nl
   +:+ PrivateKey_ r +:+ nl +:+ Certificate r +:+ nl +:+ IssuerCertificate r,
   None).

Definition demo_UnmarshalResource (s : string) : Resource * option error :=
  let '(d, s) := split_line s in
  let '(u, s) := split_line s in
  let '(su, s) := split_line s in
  let '(k, s) := split_line s in
  let '(c, s) := split_line s in
  ({| Domain := d; CertURL := u; CertStableURL := su; PrivateKey_ := k;
      Certificate := c; IssuerCertificate := s |}, None).

Definition demo_MarshalAccount (a : Account) : string * option error :=
  (Email a +:+ nl +:+
   match Registration a with
   | None => ""
   | Some reg => "R" +:+ URI reg +:+ nl +:+ Status reg
   end, None).

Definition demo_UnmarshalAccount (s : string) : Account * option error :=
  let '(e, s) := split_line s in
  match s with
  | String "R" s =>
      let '(u, st) := split_line s in
      ({| Email := e; Registration := Some {| URI := u; Status := st |};
          key := None |}, None)
  | _ => ({| Email := e; Registration := None; key := None |}, None)
  end.

Definition demo_PEMBlock (k : option PrivateKey) : option pemBlock :=
  match k with
  | Some (RSAKey m) => Some {| Type_ := "RSA PRIVATE KEY"; Bytes := m |}
  | Some (ECKey m) => Some {| Type_ := "EC PRIVATE KEY"; Bytes := m |}
  | None => None
  end.

Definition demo_EncodeToMemory (b : pemBlock) : string :=
  Type_ b +:+ nl +:+ Bytes b.

Definition demo_Decode (s : string) : option pemBlock :=
  let '(t, b) := split_line s in
  if decide (t = "") then None else Some {| Type_ := t; Bytes := b |}.

Definition demo_Generate (kt : KeyType) (n : nat)
  : option PrivateKey * option error :=
  let m := String (ascii_of_nat (65 + n)) "" in
  match kt with
  | EC256 | EC384 => (Some (ECKey m), None)
  | _ => (Some (RSAKey m), None)
  end.

Definition demo : Externals :=
  {| client_Get := None;
     read_fails := fun _ => None;
     write_fails := fun _ => None;
     json_MarshalResource := demo_MarshalResource;
     json_UnmarshalResource := demo_UnmarshalResource;
     json_MarshalAccount := demo_MarshalAccount;
     json_UnmarshalAccount := demo_UnmarshalAccount;
     GeneratePrivateKey := demo_Generate;
     PEMBlock := demo_PEMBlock;
     pem_EncodeToMemory := demo_EncodeToMemory;
     pem_Decode := demo_Decode;
     ParsePKCS1PrivateKey := fun b => (Some (RSAKey b), None);
     ParseECPrivateKey := fun b => (Some (ECKey b), None);
     lego_NewClient := fun _ => None;
     ResolveAccountByKey := fun _ =>
       (Some {| URI := "https://ca.test/acct/1"; Status := "valid" |}, None) |}.

Definition empty_world : world := {| kv := ∅; draws := 0; trace := [] |}.

Definition demo_resource : Resource :=
  {| Domain := "example.com"; CertURL := "https://ca.test/cert/1";
     CertStableURL := "https://ca.test/cert/1"; PrivateKey_ := "KEY";
     Certificate := "CERT"; IssuerCertificate := "ISSUER" |}.

Definition demo_storage : AccountsStorage :=
  {| userID := "hubert@hubert.com";
     ctx := {| server := "https://ca.test/dir"; version := "dev" |} |}.

(** The account [LoadAccount] hands back after a recovery. *)
Definition recovered (acc : Account) (reg : option RegistrationResource)
    (pk : option PrivateKey) : Account :=
  {| Email := Email acc; Registration := reg; key := pk |}.

Definition is_write (e : event) : bool :=
  match e with EvWrite _ _ => true | _ => false end.
Definition is_resolve (e : event) : bool :=
  match e with EvResolveAccountByKey _ => true | _ => false end.

(** A store holding an account record without a registration. *)
Definition orphan_world : world :=
  {| kv := <[accountPath "hubert@hubert.com" := wrapped "hubert@hubert.com"]> ∅;
     draws := 0; trace := [] |}.

(** The responder of the scenario: bound on 127.0.0.1:5002, before and after
    [serve] has registered the challenge for example.com. *)
Definition demo_idle : ProviderServer :=
  {| iface := "127.0.0.1"; port := "5002";
     listener := Some {| laddr := "127.0.0.1:5002"; closed := false |};
     mux := <["/" := root_handler]> ∅ |}.

Definition demo_serving : ProviderServer :=
  {| iface := "127.0.0.1"; port := "5002";
     listener := Some {| laddr := "127.0.0.1:5002"; closed := false |};
     mux := <[ChallengePath "tok1" := challenge_handler "example.com" "key1"]>
              (<["/" := root_handler]> ∅) |}.

(** A responder constructed with neither interface nor port. *)
Definition demo_unset : ProviderServer :=
  {| iface := ""; port := "";
     listener := Some {| laddr := ":"; closed := false |};
     mux := <["/" := root_handler]> ∅ |}.

(** The threads of the scenario's responder after a completed [CleanUp],
    with one connection accepted before the close and still unanswered. *)
Definition demo_stopped : threads :=
  {| lst := Some {| laddr := "127.0.0.1:5002"; closed := true |};
     goroutine := Exited; caller := Returned; pending := 1; served := 0 |}.

(** What holds of the threads of a constructed responder at every moment:
    the listener stays, a receive is only reached after the close, the
    goroutine only exits after the close, and a call of [CleanUp] has only
    returned once the goroutine has exited. *)
Definition handshake_inv (t : threads) : bool :=
  match lst t with
  | None => false
  | Some l =>
      match goroutine t, caller t with
      | NoServer, _ => false
      | Exited, (Returned | Idle) => closed l
      | Exited, AtClose => closed l
      | Exited, AtRecv => closed l
      | _, Returned => false
      | _, AtRecv => closed l
      | _, _ => true
      end
  end.

(** ** Payloads, and the certificate reader *)

(** The two payloads [SaveResource] writes: the raw material and the
    marshalled record. *)
Definition rawMaterial (certRes : Resource) : gmap string value :=
  <["cert" := VBytes (Certificate certRes)]>
   (<["key" := VBytes (PrivateKey_ certRes)]>
    (<["issuer" := VBytes (IssuerCertificate certRes)]> ∅)).

Definition metadata (jsonBytes : string) : gmap string value :=
  <["data" := VBytes jsonBytes]> ∅.

(** [x509.Certificate], of which nothing is inspected here. *)
Record x509Certificate : Type := { Raw : string }.

Section ReadCertificate.
Variable X : Externals.
Variable ParsePEMBundle :
  string -> option (list x509Certificate) * option error.

(** [ReadCertificate]: the bytes [ReadFile] returns, parsed by
    [certcrypto.ParsePEMBundle]. *)
Definition ReadCertificate (domain extension : string)
  : M (option (list x509Certificate) * option error) :=
  '(content, err) ← ReadFile X domain extension;
  match err with
  | Some err => mret (None, Some err)
  | None => mret (ParsePEMBundle (default "" content))
  end.
End ReadCertificate.

(** A parser for running [ReadCertificate]: one certificate per line. *)
Definition demo_ParsePEMBundle (s : string)
  : option (list x509Certificate) * option error :=
  if decide (s = "") then (None, Some "no certificates were found")
  else (Some [ {| Raw := s |} ], None).

(** The event filters of a trace. *)
Definition is_generate (e : event) : bool :=
  match e with EvGenerateKey _ => true | _ => false end.

(** A renewed certificate for the domain of [demo_resource]. *)
Definition demo_renewed : Resource :=
  {| Domain := "example.com"; CertURL := "https://ca.test/cert/2";
     CertStableURL := "https://ca.test/cert/2"; PrivateKey_ := "KEY2";
     Certificate := "CERT2"; IssuerCertificate := "ISSUER" |}.

(** Collaborators as in [demo], with a Vault that refuses writes below the
    json path, below the private key path, or fails reads of private keys. *)
Definition with_vault (read write : string -> option error) : Externals :=
  {| client_Get := None;
     read_fails := read;
     write_fails := write;
     json_MarshalResource := demo_MarshalResource;
     json_UnmarshalResource := demo_UnmarshalResource;
     json_MarshalAccount := demo_MarshalAccount;
     json_UnmarshalAccount := demo_UnmarshalAccount;
     GeneratePrivateKey := demo_Generate;
     PEMBlock := demo_PEMBlock;
     pem_EncodeToMemory := demo_EncodeToMemory;
     pem_Decode := demo_Decode;
     ParsePKCS1PrivateKey := fun b => (Some (RSAKey b), None);
     ParseECPrivateKey := fun b => (Some (ECKey b), None);
     lego_NewClient := fun _ => None;
     ResolveAccountByKey := fun _ =>
       (Some {| URI := "https://ca.test/acct/1"; Status := "valid" |}, None) |}.

Definition demo_json_down : Externals :=
  with_vault (fun _ => None)
    (fun p => if String.prefix "secret/data/fabio/json/" p
              then Some "permission denied" else None).

(** Collaborators as in [demo], with a Vault whose client cannot be had. *)
Definition demo_sealed : Externals :=
  {| client_Get := Some "vault is sealed";
     read_fails := fun _ => None;
     write_fails := fun _ => None;
     json_MarshalResource := demo_MarshalResource;
     json_UnmarshalResource := demo_UnmarshalResource;
     json_MarshalAccount := demo_MarshalAccount;
     json_UnmarshalAccount := demo_UnmarshalAccount;
     GeneratePrivateKey := demo_Generate;
     PEMBlock := demo_PEMBlock;
     pem_EncodeToMemory := demo_EncodeToMemory;
     pem_Decode := demo_Decode;
     ParsePKCS1PrivateKey := fun b => (Some (RSAKey b), None);
     ParseECPrivateKey := fun b => (Some (ECKey b), None);
     lego_NewClient := fun _ => None;
     ResolveAccountByKey := fun _ =>
       (Some {| URI := "https://ca.test/acct/1"; Status := "valid" |}, None) |}.

(** An account with a valid registration, and a store that holds it. *)
Definition demo_account : Account :=
  {| Email := "hubert@hubert.com";
     Registration := Some {| URI := "https://ca.test/acct/7"; Status := "valid" |};
     key := None |}.

Definition registered_world : world :=
  {| kv := <[accountPath "hubert@hubert.com"
               := wrapped (demo_MarshalAccount demo_account).1]> ∅;
     draws := 0; trace := [] |}.

(** A store whose record for the user carries neither email nor
    registration. *)
Definition blank_world : world :=
  {| kv := <[accountPath "hubert@hubert.com" := wrapped ""]> ∅;
     draws := 0; trace := [] |}.

(** Collaborators as in [demo], with a Vault whose reads of private keys
    fail. *)
Definition demo_keys_unreadable : Externals :=
  with_vault (fun p => if String.prefix "secret/data/fabio/private_key/" p
                       then Some "connection refused" else None)
    (fun _ => None).

(** A store holding a key block of a type [loadPrivateKey] does not know. *)
Definition pkcs8_world : world :=
  {| kv := <[privateKeyPath "hubert@hubert.com"
               := wrapped ("PRIVATE KEY" +:+ nl +:+ "abc")]> ∅;
     draws := 0; trace := [] |}.

(** Collaborators as in [demo], with a Vault that refuses writes of account
    records. *)
Definition demo_accounts_down : Externals :=
  with_vault (fun _ => None)
    (fun p => if String.prefix "secret/data/fabio/account/" p
              then Some "permission denied" else None).

(** A call of [CleanUp] that is past the nil test and has not returned. *)
Definition waiting (t : threads) : bool :=
  match caller t with AtClose | AtRecv => true | _ => false end.

(** The threads of the scenario's responder once the listener is closed and
    [Serve] has returned, and after a second call of [CleanUp]. *)
Definition demo_draining : threads :=
  {| lst := Some {| laddr := "127.0.0.1:5002"; closed := true |};
     goroutine := Signalling; caller := AtRecv; pending := 0; served := 1 |}.

Definition demo_stuck : threads :=
  {| lst := Some {| laddr := "127.0.0.1:5002"; closed := true |};
     goroutine := Exited; caller := AtRecv; pending := 1; served := 0 |}.

(** How every operation ends when [s.Client.Get()] fails: the process exits
    with the client's error, the world untouched. *)
Definition client_fatal {A} (e : error) (w : world) : result A * world :=
  (Fatal ("vault: client: " +:+ e), w).

(** Collaborators as in [demo], with an authority that resolves the key to an
    account without a status. *)
Definition demo_lax : Externals :=
  {| client_Get := None;
     read_fails := fun _ => None;
     write_fails := fun _ => None;
     json_MarshalResource := demo_MarshalResource;
     json_UnmarshalResource := demo_UnmarshalResource;
     json_MarshalAccount := demo_MarshalAccount;
     json_UnmarshalAccount := demo_UnmarshalAccount;
     GeneratePrivateKey := demo_Generate;
     PEMBlock := demo_PEMBlock;
     pem_EncodeToMemory := demo_EncodeToMemory;
     pem_Decode := demo_Decode;
     ParsePKCS1PrivateKey := fun b => (Some (RSAKey b), None);
     ParseECPrivateKey := fun b => (Some (ECKey b), None);
     lego_NewClient := fun _ => None;
     ResolveAccountByKey := fun _ =>
       (Some {| URI := "https://ca.test/acct/1"; Status := "" |}, None) |}.

(** A token as the ACME server issues it, as far as the path goes: not
    empty, without a slash, and not a dot element. Every base64url token is
    of this kind. *)
Definition plain_token (token : string) : bool :=
  negb (contains_byte "/" token)
  && negb (bool_decide (token = ""))
  && negb (bool_decide (token = "."))
  && negb (bool_decide (token = "..")).

(** * Properties *)

(** Unfolds the monad and the Vault primitives, so that a call of the
    storage code reduces on a world once the collaborators' answers are
    rewritten in. *)
Ltac unfold_M :=
  unfold Logical_Read, Logical_Write, certcrypto_GeneratePrivateKey,
    lookup_kv, store_kv, next_draw, emit, log_Fatalf, panic, lift,
    mbind, M_bind, mret, M_ret in *.

(** Nothing comes back from Vault as a [[]byte]. *)
Lemma assert_bytes_transport (m : gmap string value) (k : string) :
  assert_bytes ((json_transport <$> m) !! k) = None.
Proof.
  rewrite lookup_fmap. destruct (m !! k) as [[b|str|m']|]; reflexivity.
Qed.

(** The payload of account records and private keys comes back as it was
    written. *)
Lemma json_transport_wrapped (str : string) :
  json_transport <$> wrapped str = wrapped str.
Proof.
  unfold wrapped. rewrite fmap_insert, fmap_empty. simpl.
  rewrite fmap_insert, fmap_empty. reflexivity.
Qed.

(** After the stored payload [wrapped str] has been rewritten in: the two
    index-and-assert steps that take [str] out of what Vault returns. *)
Ltac take_wrapped :=
  simpl; rewrite json_transport_wrapped;
  unfold wrapped at 1; rewrite lookup_insert_eq; simpl;
  rewrite lookup_insert_eq; simpl.

(** ** loadPrivateKey *)

(** C8: when the decoded PEM block carries a type label that is neither the
    RSA nor the elliptic-curve private-key label, [loadPrivateKey] returns a
    nil key together with the unknown-key-type error; it does not return a
    nil key with a nil error. *)
Theorem loadPrivateKey_unknown_type (X : Externals) (keyBytes : string)
    (keyBlock : pemBlock) :
  pem_Decode X keyBytes = Some keyBlock ->
  Type_ keyBlock <> "RSA PRIVATE KEY" ->
  Type_ keyBlock <> "EC PRIVATE KEY" ->
  loadPrivateKey X keyBytes = Ok (None, Some "unknown private key type")
  /\ loadPrivateKey X keyBytes <> Ok (None, None).
Proof.
  intros Hdec Hrsa Hec.
  assert (loadPrivateKey X keyBytes = Ok (None, Some "unknown private key type"))
    as Hload.
  { unfold loadPrivateKey. rewrite Hdec.
    destruct (decide (Type_ keyBlock = "RSA PRIVATE KEY")) as [E|_]; [tauto|].
    destruct (decide (Type_ keyBlock = "EC PRIVATE KEY")) as [E|_]; [tauto|].
    reflexivity. }
  split; [exact Hload|]. rewrite Hload. discriminate.
Qed.

Lemma loadPrivateKey_unknown_type_witness :
  loadPrivateKey demo ("PRIVATE KEY" +:+ nl +:+ "abc")
    = Ok (None, Some "unknown private key type")
  /\ loadPrivateKey demo ("PRIVATE KEY" +:+ nl +:+ "abc") <> Ok (None, None).
Proof.
  apply (loadPrivateKey_unknown_type demo _
           {| Type_ := "PRIVATE KEY"; Bytes := "abc" |}).
  - reflexivity.
  - simpl. discriminate.
  - simpl. discriminate.
Defined.

(** C9: when [pem.Decode] yields no block, [loadPrivateKey] dereferences the
    nil block and panics instead of returning the unknown-key-type error;
    whenever it returns at all, the input held a decodable block. *)
Theorem loadPrivateKey_nil_block (X : Externals) (keyBytes : string) :
  (pem_Decode X keyBytes = None ->
     loadPrivateKey X keyBytes = Panic nil_deref)
  /\ (forall r, loadPrivateKey X keyBytes = Ok r ->
        is_Some (pem_Decode X keyBytes)).
Proof.
  unfold loadPrivateKey. split.
  - intros ->. reflexivity.
  - intros r. destruct (pem_Decode X keyBytes) as [b|]; [eauto|discriminate].
Qed.

Lemma loadPrivateKey_nil_block_witness :
  loadPrivateKey demo "" = Panic nil_deref.
Proof.
  apply (proj1 (loadPrivateKey_nil_block demo "")). reflexivity.
Defined.

(** ** CertificatesStorage *)

(** What [SaveResource] leaves in Vault when nothing fails: the raw material
    under the certs path, the marshalled record under the json path. *)
Lemma SaveResource_ok (X : Externals) (R : Resource) (w : world) (b : string) :
  client_Get X = None ->
  write_fails X (certsPath (Domain R)) = None ->
  write_fails X (jsonPath (Domain R)) = None ->
  json_MarshalResource X R = (b, None) ->
  exists w1,
    SaveResource X R w = (Ok tt, w1)
    /\ kv w1 !! jsonPath (Domain R) = Some (<["data" := VBytes b]> ∅).
Proof.
  intros Hc Hw1 Hw2 Hm. unfold SaveResource. rewrite Hc. unfold_M. simpl.
  rewrite Hw1. simpl. rewrite Hm. simpl. rewrite Hw2. simpl.
  eexists. split; [reflexivity|]. simpl. apply lookup_insert_eq.
Qed.

(** [ReadResource] on an entry that exists: the type assertion to [[]byte]
    fails on whatever the entry holds. *)
Lemma ReadResource_stored (X : Externals) (D : string) (w : world)
    (payload : gmap string value) :
  client_Get X = None ->
  read_fails X (jsonPath D) = None ->
  kv w !! jsonPath D = Some payload ->
  ReadResource X D w =
    (Panic bad_assert,
     {| kv := kv w; draws := draws w;
        trace := trace w ++ [EvRead (jsonPath D)] |}).
Proof.
  intros Hc Hr Hkv. unfold ReadResource. rewrite Hc. unfold_M. simpl.
  rewrite Hr. simpl. rewrite Hkv. simpl.
  rewrite assert_bytes_transport. reflexivity.
Qed.

(** C1, as the code has it: with Vault answering, [SaveResource R] succeeds
    and the [ReadResource] of [R]'s domain that follows does not return [R]:
    the record was written as a [[]byte], comes back from Vault as a string,
    and the assertion to [[]byte] panics. *)
Theorem save_then_read_panics (X : Externals) (R : Resource) (w : world)
    (b : string) :
  client_Get X = None ->
  write_fails X (certsPath (Domain R)) = None ->
  write_fails X (jsonPath (Domain R)) = None ->
  read_fails X (jsonPath (Domain R)) = None ->
  json_MarshalResource X R = (b, None) ->
  exists w1 w2,
    SaveResource X R w = (Ok tt, w1)
    /\ ReadResource X (Domain R) w1 = (Panic bad_assert, w2).
Proof.
  intros Hc Hw1 Hw2 Hr Hm.
  destruct (SaveResource_ok X R w b Hc Hw1 Hw2 Hm) as (w1 & Hsave & Hkv).
  exists w1. eexists. split; [exact Hsave|].
  apply (ReadResource_stored X (Domain R) w1 _ Hc Hr Hkv).
Qed.

Lemma save_then_read_panics_witness :
  exists w1 w2,
    SaveResource demo demo_resource empty_world = (Ok tt, w1)
    /\ ReadResource demo (Domain demo_resource) w1 = (Panic bad_assert, w2).
Proof.
  apply (save_then_read_panics demo demo_resource empty_world
           (demo_MarshalResource demo_resource).1); reflexivity.
Defined.

(** C3: for a domain whose metadata path holds nothing, with Vault
    answering, [ExistsFile] returns false, and [ReadResource] panics on the
    nil secret: it reaches none of its [log.Fatalf] calls. *)
Theorem read_never_saved (X : Externals) (D ext : string) (w : world) :
  client_Get X = None ->
  read_fails X (jsonPath D) = None ->
  kv w !! jsonPath D = None ->
  (ExistsFile X D ext w).1 = Ok false
  /\ (ReadResource X D w).1 = Panic nil_deref.
Proof.
  intros Hc Hr Hkv. unfold ExistsFile, ReadResource. rewrite Hc.
  unfold_M. simpl. rewrite Hr. simpl. rewrite Hkv. simpl. split; reflexivity.
Qed.

Lemma read_never_saved_witness :
  (ExistsFile demo "example.com" ".crt" empty_world).1 = Ok false
  /\ (ReadResource demo "example.com" empty_world).1 = Panic nil_deref.
Proof.
  apply (read_never_saved demo "example.com" ".crt" empty_world); reflexivity.
Defined.

(** An error of the read is the case [ReadResource] does report. *)
Lemma ReadResource_read_error (X : Externals) (D : string) (w : world)
    (e : error) :
  client_Get X = None ->
  read_fails X (jsonPath D) = Some e ->
  (ReadResource X D w).1 =
    Fatal ("Error while loading the meta data for domain " +:+ D +:+ " " +:+ e).
Proof.
  intros Hc Hr. unfold ReadResource. rewrite Hc. unfold_M. simpl.
  rewrite Hr. reflexivity.
Qed.

(** [ExistsFile] swallows an error of the read. *)
Lemma ExistsFile_read_error (X : Externals) (D ext : string) (w : world)
    (e : error) :
  client_Get X = None ->
  read_fails X (jsonPath D) = Some e ->
  (ExistsFile X D ext w).1 = Ok false.
Proof.
  intros Hc Hr. unfold ExistsFile. rewrite Hc. unfold_M. simpl.
  rewrite Hr. reflexivity.
Qed.

(** ** AccountsStorage: the private key *)

(** The first call, on a store without a key for the user: the key is drawn,
    its PEM encoding written, and the key returned. *)
Lemma GetPrivateKey_fresh (X : Externals) (s : AccountsStorage) (kt : KeyType)
    (w : world) (k : option PrivateKey) (blk : pemBlock) :
  client_Get X = None ->
  read_fails X (privateKeyPath (userID s)) = None ->
  kv w !! privateKeyPath (userID s) = None ->
  GeneratePrivateKey X kt (draws w) = (k, None) ->
  PEMBlock X k = Some blk ->
  write_fails X (privateKeyPath (userID s)) = None ->
  GetPrivateKey X s kt w =
    (Ok k,
     {| kv := <[privateKeyPath (userID s) := wrapped (pem_EncodeToMemory X blk)]>
                (kv w);
        draws := S (draws w);
        trace := ((trace w ++ [EvRead (privateKeyPath (userID s))])
                    ++ [EvGenerateKey kt])
                   ++ [EvWrite (privateKeyPath (userID s))
                         (wrapped (pem_EncodeToMemory X blk))] |}).
Proof.
  intros Hc Hr Hkv Hg Hp Hw. unfold GetPrivateKey. rewrite Hc.
  unfold_M. simpl. rewrite Hr. simpl. rewrite Hkv. simpl.
  rewrite Hg. simpl. rewrite Hp. simpl. rewrite Hw. reflexivity.
Qed.

(** A failing write of the key ends the process: no key is returned. *)
Lemma GetPrivateKey_write_fails (X : Externals) (s : AccountsStorage)
    (kt : KeyType) (w : world) (k : option PrivateKey) (blk : pemBlock)
    (e : error) :
  client_Get X = None ->
  read_fails X (privateKeyPath (userID s)) = None ->
  kv w !! privateKeyPath (userID s) = None ->
  GeneratePrivateKey X kt (draws w) = (k, None) ->
  PEMBlock X k = Some blk ->
  write_fails X (privateKeyPath (userID s)) = Some e ->
  (GetPrivateKey X s kt w).1 =
    Fatal ("Could not write private account key for account "
           +:+ userID s +:+ ": " +:+ e).
Proof.
  intros Hc Hr Hkv Hg Hp Hw. unfold GetPrivateKey. rewrite Hc.
  unfold_M. simpl. rewrite Hr. simpl. rewrite Hkv. simpl.
  rewrite Hg. simpl. rewrite Hp. simpl. rewrite Hw. reflexivity.
Qed.

(** A later call, on a store that holds an encoded key: the key is decoded,
    nothing is drawn and nothing is written. *)
Lemma GetPrivateKey_stored (X : Externals) (s : AccountsStorage) (kt : KeyType)
    (w : world) (pem : string) (k : option PrivateKey) :
  client_Get X = None ->
  read_fails X (privateKeyPath (userID s)) = None ->
  kv w !! privateKeyPath (userID s) = Some (wrapped pem) ->
  loadPrivateKey X pem = Ok (k, None) ->
  GetPrivateKey X s kt w =
    (Ok k, {| kv := kv w; draws := draws w;
              trace := trace w ++ [EvRead (privateKeyPath (userID s))] |}).
Proof.
  intros Hc Hr Hkv Hl. unfold GetPrivateKey. rewrite Hc.
  unfold_M. simpl. rewrite Hr. simpl. rewrite Hkv. take_wrapped.
  rewrite Hl. reflexivity.
Qed.

(** On a block of one of the two known types [loadPrivateKey] returns the
    answer of the parser of that type. *)
Lemma loadPrivateKey_known (X : Externals) (keyBytes : string) (blk : pemBlock) :
  pem_Decode X keyBytes = Some blk ->
  (Type_ blk = "RSA PRIVATE KEY" ->
     loadPrivateKey X keyBytes = Ok (ParsePKCS1PrivateKey X (Bytes blk)))
  /\ (Type_ blk = "EC PRIVATE KEY" ->
      loadPrivateKey X keyBytes = Ok (ParseECPrivateKey X (Bytes blk))).
Proof.
  intros Hd. unfold loadPrivateKey. rewrite Hd. split; intros ->.
  - reflexivity.
  - reflexivity.
Qed.

(** C4: for a user without a stored key, the first [GetPrivateKey] draws a
    key, writes its PEM encoding and returns the key only if the write
    succeeded (a failed write is fatal); a second call, whatever key type it
    asks for, decodes the stored PEM and returns the same key without
    drawing another. The PEM armour and the x509 parsers are taken to invert
    the encoding of the drawn key, under either of the two labels. *)
Theorem GetPrivateKey_idempotent (X : Externals) (s : AccountsStorage)
    (kt kt' : KeyType) (w : world) (k : option PrivateKey) (blk : pemBlock) :
  client_Get X = None ->
  read_fails X (privateKeyPath (userID s)) = None ->
  kv w !! privateKeyPath (userID s) = None ->
  GeneratePrivateKey X kt (draws w) = (k, None) ->
  PEMBlock X k = Some blk ->
  pem_Decode X (pem_EncodeToMemory X blk) = Some blk ->
  (Type_ blk = "RSA PRIVATE KEY"
   /\ ParsePKCS1PrivateKey X (Bytes blk) = (k, None))
  \/ (Type_ blk = "EC PRIVATE KEY"
      /\ ParseECPrivateKey X (Bytes blk) = (k, None)) ->
  (forall e, write_fails X (privateKeyPath (userID s)) = Some e ->
     exists msg, (GetPrivateKey X s kt w).1 = Fatal msg)
  /\ (write_fails X (privateKeyPath (userID s)) = None ->
      exists w1 w2,
        GetPrivateKey X s kt w = (Ok k, w1)
        /\ kv w1 !! privateKeyPath (userID s)
             = Some (wrapped (pem_EncodeToMemory X blk))
        /\ GetPrivateKey X s kt' w1 = (Ok k, w2)
        /\ draws w2 = draws w1
        /\ kv w2 = kv w1).
Proof.
  intros Hc Hr Hkv Hg Hp Hd Hparse.
  assert (loadPrivateKey X (pem_EncodeToMemory X blk) = Ok (k, None)) as Hl.
  { destruct (loadPrivateKey_known X _ blk Hd) as [Hrsa Hec].
    destruct Hparse as [[Ht Hk]|[Ht Hk]].
    - rewrite (Hrsa Ht), Hk. reflexivity.
    - rewrite (Hec Ht), Hk. reflexivity. }
  split.
  - intros e Hw. eexists.
    apply (GetPrivateKey_write_fails X s kt w k blk e); assumption.
  - intros Hw.
    pose proof (GetPrivateKey_fresh X s kt w k blk Hc Hr Hkv Hg Hp Hw) as H1.
    eexists. eexists. split; [exact H1|].
    split; [simpl; apply lookup_insert_eq|].
    split.
    + apply (GetPrivateKey_stored X s kt' _ (pem_EncodeToMemory X blk) k);
        try assumption.
      simpl. apply lookup_insert_eq.
    + split; reflexivity.
Qed.

Lemma GetPrivateKey_idempotent_witness :
  (exists w1 w2,
     GetPrivateKey demo demo_storage RSA2048 empty_world
       = (Ok (Some (RSAKey "A")), w1)
     /\ kv w1 !! privateKeyPath (userID demo_storage)
          = Some (wrapped (pem_EncodeToMemory demo
                             {| Type_ := "RSA PRIVATE KEY"; Bytes := "A" |}))
     /\ GetPrivateKey demo demo_storage EC256 w1 = (Ok (Some (RSAKey "A")), w2)
     /\ draws w2 = draws w1
     /\ kv w2 = kv w1)
  /\ (exists w1 w2,
        GetPrivateKey demo demo_storage EC256 empty_world
          = (Ok (Some (ECKey "A")), w1)
        /\ kv w1 !! privateKeyPath (userID demo_storage)
             = Some (wrapped (pem_EncodeToMemory demo
                                {| Type_ := "EC PRIVATE KEY"; Bytes := "A" |}))
        /\ GetPrivateKey demo demo_storage RSA2048 w1
             = (Ok (Some (ECKey "A")), w2)
        /\ draws w2 = draws w1
        /\ kv w2 = kv w1).
Proof.
  split.
  - apply (proj2 (GetPrivateKey_idempotent demo demo_storage RSA2048 EC256
                    empty_world (Some (RSAKey "A"))
                    {| Type_ := "RSA PRIVATE KEY"; Bytes := "A" |}
                    eq_refl eq_refl eq_refl eq_refl eq_refl eq_refl
                    (or_introl (conj eq_refl eq_refl)))).
    reflexivity.
  - apply (proj2 (GetPrivateKey_idempotent demo demo_storage EC256 RSA2048
                    empty_world (Some (ECKey "A"))
                    {| Type_ := "EC PRIVATE KEY"; Bytes := "A" |}
                    eq_refl eq_refl eq_refl eq_refl eq_refl eq_refl
                    (or_intror (conj eq_refl eq_refl)))).
    reflexivity.
Defined.

(** ** AccountsStorage: the account record *)

Section LoadAccount.
Variable X : Externals.
Variable s : AccountsStorage.
Variable pk : option PrivateKey.
Variable w : world.
Variables (str : string) (acc : Account).

Hypothesis client_ok : client_Get X = None.
Hypothesis read_ok : read_fails X (accountPath (userID s)) = None.
Hypothesis stored : kv w !! accountPath (userID s) = Some (wrapped str).
Hypothesis decoded : json_UnmarshalAccount X str = (acc, None).
Hypothesis missing : registration_missing acc = true.

Let cfg := recoveryConfig (ctx s) pk.

Ltac enter :=
  unfold LoadAccount; rewrite client_ok; unfold_M; simpl;
  rewrite read_ok; simpl; rewrite stored; take_wrapped;
  rewrite decoded; simpl;
  unfold registration_missing in *; simpl; rewrite missing;
  unfold tryRecoverRegistration, Save; unfold_M; simpl; fold cfg.

Lemma LoadAccount_recovery_ok (reg : option RegistrationResource)
    (json : string) :
  lego_NewClient X cfg = None ->
  ResolveAccountByKey X cfg = (reg, None) ->
  json_MarshalAccount X (recovered acc reg pk) = (json, None) ->
  write_fails X (accountPath (Email acc)) = None ->
  LoadAccount X s pk w =
    (Ok (recovered acc reg pk),
     {| kv := <[accountPath (Email acc) := wrapped json]> (kv w);
        draws := draws w;
        trace := trace w ++ [EvRead (accountPath (userID s));
                             EvNewClient cfg;
                             EvResolveAccountByKey cfg;
                             EvWrite (accountPath (Email acc)) (wrapped json)]
     |}).
Proof.
  intros Hn Hres Hm Hw. enter. rewrite Hn. simpl. rewrite Hres. simpl.
  rewrite client_ok. fold (recovered acc reg pk). rewrite Hm. simpl.
  rewrite Hw. simpl. rewrite <- !app_assoc. reflexivity.
Qed.

Lemma LoadAccount_newclient_fails (e : error) :
  lego_NewClient X cfg = Some e ->
  LoadAccount X s pk w =
    (Fatal ("Could not load account for " +:+ userID s
            +:+ ". Registration is nil -> " +:+ e),
     {| kv := kv w; draws := draws w;
        trace := trace w ++ [EvRead (accountPath (userID s));
                             EvNewClient cfg] |}).
Proof.
  intros Hn. enter. rewrite Hn. simpl. rewrite <- !app_assoc. reflexivity.
Qed.

Lemma LoadAccount_resolve_fails (reg : option RegistrationResource)
    (e : error) :
  lego_NewClient X cfg = None ->
  ResolveAccountByKey X cfg = (reg, Some e) ->
  LoadAccount X s pk w =
    (Fatal ("Could not load account for " +:+ userID s
            +:+ ". Registration is nil -> " +:+ e),
     {| kv := kv w; draws := draws w;
        trace := trace w ++ [EvRead (accountPath (userID s));
                             EvNewClient cfg;
                             EvResolveAccountByKey cfg] |}).
Proof.
  intros Hn Hres. enter. rewrite Hn. simpl. rewrite Hres. simpl.
  rewrite <- !app_assoc. reflexivity.
Qed.

Lemma LoadAccount_save_fails (reg : option RegistrationResource)
    (json : string) (merr : option error) (e : error) :
  lego_NewClient X cfg = None ->
  ResolveAccountByKey X cfg = (reg, None) ->
  json_MarshalAccount X (recovered acc reg pk) = (json, merr) ->
  merr = Some e \/ (merr = None /\
                    write_fails X (accountPath (Email acc)) = Some e) ->
  (LoadAccount X s pk w).1 =
    Fatal ("Could not save account for " +:+ userID s
           +:+ ". Registration is nil -> " +:+ e).
Proof.
  intros Hn Hres Hm Hfail. enter. rewrite Hn. simpl. rewrite Hres. simpl.
  rewrite client_ok. fold (recovered acc reg pk). rewrite Hm. simpl.
  destruct Hfail as [->|[-> Hw]]; simpl; [reflexivity|].
  rewrite Hw. reflexivity.
Qed.
End LoadAccount.

(** C2, as the code has it: for a stored account record whose registration
    is nil or has an empty status, [LoadAccount] asks the authority once,
    then writes the account once with the answer attached, and returns that
    account. The registration it carries is the authority's answer, nil or
    without status if that is what the authority gave: it is usable exactly
    when the answer has a status. A failure to build the client, of the
    resolution, of the marshalling or of the write is fatal. *)
Theorem LoadAccount_recovers (X : Externals) (s : AccountsStorage)
    (pk : option PrivateKey) (w : world) (str : string) (acc : Account) :
  client_Get X = None ->
  read_fails X (accountPath (userID s)) = None ->
  kv w !! accountPath (userID s) = Some (wrapped str) ->
  json_UnmarshalAccount X str = (acc, None) ->
  registration_missing acc = true ->
  let cfg := recoveryConfig (ctx s) pk in
  (forall reg json,
      lego_NewClient X cfg = None ->
      ResolveAccountByKey X cfg = (reg, None) ->
      json_MarshalAccount X (recovered acc reg pk) = (json, None) ->
      write_fails X (accountPath (Email acc)) = None ->
      exists w',
        LoadAccount X s pk w = (Ok (recovered acc reg pk), w')
        /\ trace w' = (trace w ++ [EvRead (accountPath (userID s));
                                   EvNewClient cfg;
                                   EvResolveAccountByKey cfg;
                                   EvWrite (accountPath (Email acc))
                                     (wrapped json)])%list
        /\ kv w' !! accountPath (Email acc) = Some (wrapped json)
        /\ (registration_missing (recovered acc reg pk) = false
            <-> exists r, reg = Some r /\ Status r <> ""))
  /\ (forall reg e,
        lego_NewClient X cfg = Some e
        \/ (lego_NewClient X cfg = None
            /\ ResolveAccountByKey X cfg = (reg, Some e)) ->
        exists msg w',
          LoadAccount X s pk w = (Fatal msg, w')
          /\ kv w' = kv w
          /\ filter is_write (trace w') = filter is_write (trace w))
  /\ (forall reg json merr e,
        lego_NewClient X cfg = None ->
        ResolveAccountByKey X cfg = (reg, None) ->
        json_MarshalAccount X (recovered acc reg pk) = (json, merr) ->
        merr = Some e \/ (merr = None /\
                          write_fails X (accountPath (Email acc)) = Some e) ->
        exists msg, (LoadAccount X s pk w).1 = Fatal msg).
Proof.
  intros Hc Hr Hkv Hu Hmiss cfg. split; [|split].
  - intros reg json Hn Hres Hm Hw.
    eexists. split.
    { apply (LoadAccount_recovery_ok X s pk w str acc Hc Hr Hkv Hu Hmiss
               reg json Hn Hres Hm Hw). }
    simpl. split; [reflexivity|]. split; [apply lookup_insert_eq|].
    unfold registration_missing. simpl. destruct reg as [r|].
    + rewrite bool_decide_eq_false. split.
      * intros Hst. exists r. split; [reflexivity|exact Hst].
      * intros (r' & [= <-] & Hst). exact Hst.
    + split; [discriminate|]. intros (r' & [=] & _).
  - intros reg e [Hn|[Hn Hres]].
    + eexists. eexists. split.
      { apply (LoadAccount_newclient_fails X s pk w str acc Hc Hr Hkv Hu
                 Hmiss e Hn). }
      simpl. split; [reflexivity|].
      rewrite filter_app. simpl. apply app_nil_r.
    + eexists. eexists. split.
      { apply (LoadAccount_resolve_fails X s pk w str acc Hc Hr Hkv Hu
                 Hmiss reg e Hn Hres). }
      simpl. split; [reflexivity|].
      rewrite filter_app. simpl. apply app_nil_r.
  - intros reg json merr e Hn Hres Hm Hfail. eexists.
    apply (LoadAccount_save_fails X s pk w str acc Hc Hr Hkv Hu Hmiss
             reg json merr e Hn Hres Hm Hfail).
Qed.

Lemma LoadAccount_recovers_witness :
  exists w',
    LoadAccount demo demo_storage (Some (RSAKey "A")) orphan_world
      = (Ok {| Email := "hubert@hubert.com";
               Registration := Some {| URI := "https://ca.test/acct/1";
                                       Status := "valid" |};
               key := Some (RSAKey "A") |}, w')
    /\ filter is_resolve (trace w')
         = [EvResolveAccountByKey
              (recoveryConfig (ctx demo_storage) (Some (RSAKey "A")))]
    /\ length (filter is_write (trace w')) = 1.
Proof.
  destruct (LoadAccount_recovers demo demo_storage (Some (RSAKey "A"))
              orphan_world "hubert@hubert.com"
              {| Email := "hubert@hubert.com"; Registration := None;
                 key := None |}
              eq_refl eq_refl eq_refl eq_refl eq_refl) as [H _].
  destruct (H (Some {| URI := "https://ca.test/acct/1"; Status := "valid" |})
              _ eq_refl eq_refl eq_refl eq_refl) as (w' & H1 & H2 & _).
  exists w'. split; [exact H1|]. rewrite H2. split; reflexivity.
Defined.

(** C2 as stated fails: when the authority resolves the key to an account
    without a status, [LoadAccount] returns after its one resolution and one
    write, and the account it returns has an unusable registration. *)
Lemma LoadAccount_unusable_counterexample :
  ~ (forall (X : Externals) (s : AccountsStorage) (pk : option PrivateKey)
            (w w' : world) (str : string) (acc a : Account),
        client_Get X = None ->
        read_fails X (accountPath (userID s)) = None ->
        kv w !! accountPath (userID s) = Some (wrapped str) ->
        json_UnmarshalAccount X str = (acc, None) ->
        registration_missing acc = true ->
        LoadAccount X s pk w = (Ok a, w') ->
        registration_missing a = false).
Proof.
  intros H.
  pose proof (H demo_lax demo_storage (Some (RSAKey "A")) orphan_world
                (LoadAccount demo_lax demo_storage (Some (RSAKey "A"))
                   orphan_world).2
                "hubert@hubert.com"
                {| Email := "hubert@hubert.com"; Registration := None;
                   key := None |}
                {| Email := "hubert@hubert.com";
                   Registration := Some {| URI := "https://ca.test/acct/1";
                                           Status := "" |};
                   key := Some (RSAKey "A") |}
                eq_refl eq_refl eq_refl eq_refl eq_refl eq_refl) as Hno.
  discriminate Hno.
Qed.

(** The outcome of [LoadAccount] depends on the store only through the
    payload at the path of the storage's user. *)
Lemma LoadAccount_reads_userID (X : Externals) (s : AccountsStorage)
    (pk : option PrivateKey) (w w' : world) :
  kv w !! accountPath (userID s) = kv w' !! accountPath (userID s) ->
  (LoadAccount X s pk w).1 = (LoadAccount X s pk w').1.
Proof.
  intros Hkv. unfold LoadAccount, tryRecoverRegistration, Save.
  destruct (client_Get X); [reflexivity|].
  unfold_M. simpl. destruct (read_fails X _); [reflexivity|]. simpl.
  rewrite Hkv. destruct (kv w' !! _) as [payload|]; [|reflexivity]. simpl.
  destruct (assert_map _) as [d|]; [|reflexivity].
  destruct (assert_string _) as [js|]; [|reflexivity].
  destruct (json_UnmarshalAccount X js) as [a [e|]]; [reflexivity|].
  destruct (registration_missing _); [|reflexivity]. simpl.
  destruct (lego_NewClient X _); [reflexivity|]. simpl.
  destruct (ResolveAccountByKey X _) as [reg [e|]]; [reflexivity|]. simpl.
  destruct (json_MarshalAccount X _) as [json [e|]]; [reflexivity|]. simpl.
  destruct (write_fails X _); reflexivity.
Qed.

Lemma ExistsAccountFilePath_reads_userID (X : Externals) (s : AccountsStorage)
    (w w' : world) :
  kv w !! accountPath (userID s) = kv w' !! accountPath (userID s) ->
  (ExistsAccountFilePath X s w).1 = (ExistsAccountFilePath X s w').1.
Proof.
  intros Hkv. unfold ExistsAccountFilePath.
  destruct (client_Get X); [reflexivity|].
  unfold_M. simpl. destruct (read_fails X _); [reflexivity|]. simpl.
  rewrite Hkv. destruct (kv w' !! _); reflexivity.
Qed.

Lemma accountPath_inj (a b : string) : accountPath a = accountPath b -> a = b.
Proof. unfold accountPath. apply String.app_inj. Qed.

(** What [Save] does when nothing fails. *)
Lemma Save_ok (X : Externals) (s : AccountsStorage) (a : Account) (w : world)
    (json : string) :
  client_Get X = None ->
  json_MarshalAccount X a = (json, None) ->
  write_fails X (accountPath (Email a)) = None ->
  Save X s a w =
    (Ok None,
     {| kv := <[accountPath (Email a) := wrapped json]> (kv w);
        draws := draws w;
        trace := trace w ++ [EvWrite (accountPath (Email a)) (wrapped json)] |}).
Proof.
  intros Hc Hm Hw. unfold Save. rewrite Hc, Hm. unfold_M. simpl.
  rewrite Hw. reflexivity.
Qed.

(** [LoadAccount] on a record whose registration is usable: the decoded
    account with the key attached, and no call to the authority. *)
Lemma LoadAccount_usable (X : Externals) (s : AccountsStorage)
    (pk : option PrivateKey) (w : world) (str : string) (acc : Account) :
  client_Get X = None ->
  read_fails X (accountPath (userID s)) = None ->
  kv w !! accountPath (userID s) = Some (wrapped str) ->
  json_UnmarshalAccount X str = (acc, None) ->
  registration_missing acc = false ->
  LoadAccount X s pk w =
    (Ok {| Email := Email acc; Registration := Registration acc; key := pk |},
     {| kv := kv w; draws := draws w;
        trace := trace w ++ [EvRead (accountPath (userID s))] |}).
Proof.
  intros Hc Hr Hkv Hu Hreg. unfold LoadAccount. rewrite Hc. unfold_M. simpl.
  rewrite Hr. simpl. rewrite Hkv. take_wrapped. rewrite Hu. simpl.
  unfold registration_missing in *. simpl. rewrite Hreg. reflexivity.
Qed.

(** What [ExistsAccountFilePath] answers when Vault answers: whether the path
    of the storage's user holds an entry. *)
Lemma ExistsAccountFilePath_probe (X : Externals) (s : AccountsStorage)
    (w : world) :
  client_Get X = None ->
  read_fails X (accountPath (userID s)) = None ->
  (ExistsAccountFilePath X s w).1
    = Ok (bool_decide (is_Some (kv w !! accountPath (userID s)))).
Proof.
  intros Hc Hr. unfold ExistsAccountFilePath. rewrite Hc. unfold_M. simpl.
  rewrite Hr. simpl. destruct (kv w !! accountPath (userID s)); reflexivity.
Qed.

(** C10: [Save] writes under the path of the account's own email, whereas
    [ExistsAccountFilePath] and [LoadAccount] read the path of the storage's
    user: the probe answers whether that path holds an entry. Saving an
    account with another email leaves what they read, and so their outcome,
    unchanged; when the email is the storage's user, the probe answers true
    after the save and a later [LoadAccount] returns the saved account with
    the key attached. *)
Theorem Save_keyed_by_email (X : Externals) (s : AccountsStorage) (a : Account)
    (w : world) (json : string) :
  client_Get X = None ->
  json_MarshalAccount X a = (json, None) ->
  write_fails X (accountPath (Email a)) = None ->
  exists w',
    Save X s a w = (Ok None, w')
    /\ kv w' = <[accountPath (Email a) := wrapped json]> (kv w)
    /\ (read_fails X (accountPath (userID s)) = None ->
        (ExistsAccountFilePath X s w).1
          = Ok (bool_decide (is_Some (kv w !! accountPath (userID s))))
        /\ (ExistsAccountFilePath X s w').1
             = Ok (bool_decide (is_Some (kv w' !! accountPath (userID s)))))
    /\ (Email a <> userID s ->
        kv w' !! accountPath (userID s) = kv w !! accountPath (userID s)
        /\ (ExistsAccountFilePath X s w').1 = (ExistsAccountFilePath X s w).1
        /\ forall pk, (LoadAccount X s pk w').1 = (LoadAccount X s pk w).1)
    /\ (Email a = userID s ->
        read_fails X (accountPath (userID s)) = None ->
        (ExistsAccountFilePath X s w').1 = Ok true
        /\ forall pk a0,
             json_UnmarshalAccount X json = (a0, None) ->
             Email a0 = Email a ->
             Registration a0 = Registration a ->
             registration_missing a = false ->
             (LoadAccount X s pk w').1
               = Ok {| Email := Email a; Registration := Registration a;
                       key := pk |}).
Proof.
  intros Hc Hm Hw. eexists. split; [apply Save_ok; eassumption|].
  simpl. split; [reflexivity|]. split; [|split].
  - intros Hr. split; apply ExistsAccountFilePath_probe; assumption.
  - intros Hne.
    assert (<[accountPath (Email a) := wrapped json]> (kv w)
              !! accountPath (userID s) = kv w !! accountPath (userID s)) as E.
    { apply lookup_insert_ne. intros H. apply Hne. exact (accountPath_inj _ _ H). }
    split; [exact E|]. split.
    + apply ExistsAccountFilePath_reads_userID. exact E.
    + intros pk. apply LoadAccount_reads_userID. exact E.
  - intros Heq Hr. split.
    + rewrite (ExistsAccountFilePath_probe X s _ Hc Hr). simpl.
      rewrite Heq, lookup_insert_eq. reflexivity.
    + intros pk a0 Hu He Hreg Husable.
      erewrite LoadAccount_usable; try eassumption.
      * simpl. rewrite He, Hreg. reflexivity.
      * simpl. rewrite Heq. apply lookup_insert_eq.
      * unfold registration_missing in *. rewrite Hreg. exact Husable.
Qed.

Lemma Save_keyed_by_email_witness :
  (exists w',
     Save demo demo_storage
       {| Email := "other@hubert.com"; Registration := None; key := None |}
       empty_world = (Ok None, w')
     /\ (ExistsAccountFilePath demo demo_storage w').1 = Ok false
     /\ (LoadAccount demo demo_storage None w').1
          = (LoadAccount demo demo_storage None empty_world).1)
  /\ (exists w',
        Save demo demo_storage demo_account empty_world = (Ok None, w')
        /\ (ExistsAccountFilePath demo demo_storage w').1 = Ok true
        /\ (LoadAccount demo demo_storage (Some (RSAKey "A")) w').1
             = Ok {| Email := "hubert@hubert.com";
                     Registration := Registration demo_account;
                     key := Some (RSAKey "A") |}).
Proof.
  split.
  - destruct (Save_keyed_by_email demo demo_storage
                {| Email := "other@hubert.com"; Registration := None;
                   key := None |}
                empty_world _ eq_refl eq_refl eq_refl)
      as (w' & H1 & _ & _ & H2 & _).
    exists w'. split; [exact H1|].
    destruct H2 as (_ & H3 & H4); [simpl; discriminate|].
    split; [rewrite H3; reflexivity|apply H4].
  - destruct (Save_keyed_by_email demo demo_storage demo_account
                empty_world _ eq_refl eq_refl eq_refl)
      as (w' & H1 & _ & _ & _ & H2).
    exists w'. split; [exact H1|].
    destruct (H2 eq_refl eq_refl) as [H3 H4].
    split; [exact H3|].
    apply (H4 (Some (RSAKey "A")) demo_account); reflexivity.
Defined.

(** ** The challenge handler *)

Lemma ChallengePath_not_star (token : string) : ChallengePath token <> "*".
Proof. intros H. vm_compute in H. discriminate H. Qed.

(** After [serve], a request for the challenge path, when that path is
    canonical, reaches the handler of the challenge. *)
Lemma serve_routes (s s' : ProviderServer) (domain token keyAuth : string)
    (r : Request) (w : ResponseWriter) :
  serve s domain token keyAuth = Ok s' ->
  URL_Path r = ChallengePath token ->
  cleanPath (ChallengePath token) = ChallengePath token ->
  ServeHTTP (mux s') r w
    = challenge_handler domain keyAuth r (response_to r w).
Proof.
  unfold serve, mux_HandleFunc.
  destruct (decide (ChallengePath token = "")); [discriminate|].
  destruct (mux s !! ChallengePath token) eqn:E; [discriminate|].
  intros [= <-] Hp Hclean. unfold ServeHTTP. simpl. rewrite Hp.
  destruct (decide (ChallengePath token = "*")) as [Hs|_];
    [destruct (ChallengePath_not_star _ Hs)|].
  assert (forall h (m : gmap string HandlerFunc),
            shouldRedirect (<[ChallengePath token := h]> m) (ChallengePath token)
            = false) as Hno.
  { intros h m. unfold shouldRedirect. rewrite lookup_insert_eq. reflexivity. }
  unfold mux_Handler. rewrite Hp, Hclean, Hno.
  assert (mux_handler (<[ChallengePath token
                           := challenge_handler domain keyAuth]> (mux s))
            (ChallengePath token) = challenge_handler domain keyAuth) as Hh.
  { unfold mux_handler. rewrite lookup_insert_eq. reflexivity. }
  rewrite Hh.
  destruct (decide (Method r = "CONNECT")); [reflexivity|].
  destruct (decide (ChallengePath token = ChallengePath token));
    [reflexivity|contradiction].
Qed.

(** The handler never sends another status than 200: its first write sends
    the header, and [http.Error] comes too late to change it. *)
Lemma challenge_handler_status (domain keyAuth : string) (r : Request)
    (cerr : option error) :
  status (challenge_handler domain keyAuth r (response_to r (fresh cerr))) = 200.
Proof.
  unfold challenge_handler, response_to, Write, WriteHeader. simpl.
  destruct (String.prefix domain (Host r) && bool_decide (Method r = MethodGet));
    destruct (bool_decide (Method r = "HEAD")); destruct cerr; reflexivity.
Qed.

Lemma challenge_handler_body (domain keyAuth : string) (r : Request) :
  body (challenge_handler domain keyAuth r (response_to r (fresh None))) =
    if bool_decide (Method r = "HEAD") then ""
    else if String.prefix domain (Host r) && bool_decide (Method r = MethodGet)
         then keyAuth else "TEST".
Proof.
  unfold challenge_handler, response_to, Write, WriteHeader. simpl.
  destruct (String.prefix domain (Host r) && bool_decide (Method r = MethodGet));
    destruct (bool_decide (Method r = "HEAD")); reflexivity.
Qed.

(** C5, as the code has it: once [serve] has registered the challenge, a
    request for the challenge path (a canonical path, as that of every
    base64url token is) gets status 200 whatever it is. Over a working
    connection the body is the key authorization when the Host header starts
    with the domain and the method is GET; for any other request it is what
    the handler writes, the fixed text TEST, of which a HEAD request receives
    nothing; that body differs from the key authorization unless the key
    authorization is itself TEST, or empty. *)
Theorem challenge_response (s s' : ProviderServer)
    (domain token keyAuth : string) (r : Request) :
  serve s domain token keyAuth = Ok s' ->
  URL_Path r = ChallengePath token ->
  cleanPath (ChallengePath token) = ChallengePath token ->
  (forall cerr, status (ServeHTTP (mux s') r (fresh cerr)) = 200)
  /\ (String.prefix domain (Host r) = true -> Method r = "GET" ->
      body (ServeHTTP (mux s') r (fresh None)) = keyAuth)
  /\ (String.prefix domain (Host r) = false \/ Method r <> "GET" ->
      body (ServeHTTP (mux s') r (fresh None))
        = (if decide (Method r = "HEAD") then "" else "TEST")
      /\ (keyAuth <> "TEST" -> keyAuth <> "" ->
          body (ServeHTTP (mux s') r (fresh None)) <> keyAuth)).
Proof.
  intros Hs Hp Hc.
  split; [intros cerr; rewrite (serve_routes _ _ _ _ _ r _ Hs Hp Hc);
          apply challenge_handler_status|].
  rewrite (serve_routes _ _ _ _ _ r _ Hs Hp Hc), challenge_handler_body.
  split.
  - intros -> Hm. rewrite Hm. reflexivity.
  - intros Hno.
    assert (String.prefix domain (Host r) && bool_decide (Method r = MethodGet)
            = false) as ->.
    { destruct Hno as [->|Hm]; [reflexivity|].
      rewrite (bool_decide_eq_false_2 _ Hm). apply andb_false_r. }
    destruct (decide (Method r = "HEAD")) as [Hh|Hh].
    + rewrite (bool_decide_eq_true_2 _ Hh). split; [reflexivity|].
      intros _ Hk E. apply Hk. symmetry. exact E.
    + rewrite (bool_decide_eq_false_2 _ Hh). split; [reflexivity|].
      intros Hk _ E. apply Hk. symmetry. exact E.
Qed.

Lemma challenge_response_witness :
  body (ServeHTTP (mux demo_serving)
          {| Host := "example.com"; Method := "GET";
             URL_Path := "/.well-known/acme-challenge/tok1" |} (fresh None))
    = "key1"
  /\ body (ServeHTTP (mux demo_serving)
             {| Host := "other.org"; Method := "GET";
                URL_Path := "/.well-known/acme-challenge/tok1" |} (fresh None))
       = "TEST"
  /\ body (ServeHTTP (mux demo_serving)
             {| Host := "example.com"; Method := "HEAD";
                URL_Path := "/.well-known/acme-challenge/tok1" |} (fresh None))
       = "".
Proof.
  split; [|split].
  - apply (proj1 (proj2 (challenge_response demo_idle demo_serving
                           "example.com" "tok1" "key1"
                           {| Host := "example.com"; Method := "GET";
                              URL_Path := "/.well-known/acme-challenge/tok1" |}
                           eq_refl eq_refl eq_refl)));
      reflexivity.
  - apply (proj2 (proj2 (challenge_response demo_idle demo_serving
                           "example.com" "tok1" "key1"
                           {| Host := "other.org"; Method := "GET";
                              URL_Path := "/.well-known/acme-challenge/tok1" |}
                           eq_refl eq_refl eq_refl))).
    left. reflexivity.
  - apply (proj2 (proj2 (challenge_response demo_idle demo_serving
                           "example.com" "tok1" "key1"
                           {| Host := "example.com"; Method := "HEAD";
                              URL_Path := "/.well-known/acme-challenge/tok1" |}
                           eq_refl eq_refl eq_refl))).
    right. discriminate.
Defined.

(** C5 as stated fails: when the key authorization is itself the text TEST,
    a request from a foreign host is answered with the key authorization. *)
Lemma challenge_fallback_counterexample :
  ~ (forall (s s' : ProviderServer) (domain token keyAuth : string)
            (r : Request),
        serve s domain token keyAuth = Ok s' ->
        URL_Path r = ChallengePath token ->
        String.prefix domain (Host r) && bool_decide (Method r = "GET")
          = false ->
        status (ServeHTTP (mux s') r (fresh None)) = 200
        /\ body (ServeHTTP (mux s') r (fresh None)) <> keyAuth).
Proof.
  intros H.
  destruct (H demo_idle
              {| iface := "127.0.0.1"; port := "5002";
                 listener := listener demo_idle;
                 mux := <[ChallengePath "tok1"
                            := challenge_handler "example.com" "TEST"]>
                          (mux demo_idle) |}
              "example.com" "tok1" "TEST"
              {| Host := "other.org"; Method := "GET";
                 URL_Path := "/.well-known/acme-challenge/tok1" |}
              eq_refl eq_refl eq_refl) as [_ Hbody].
  apply Hbody. reflexivity.
Qed.

(** ** The listening address *)

Lemma JoinHostPort_port_inj (host p q : string) :
  JoinHostPort host p = JoinHostPort host q -> p = q.
Proof.
  unfold JoinHostPort.
  destruct (contains_byte ":" host || contains_byte "%" host); intros H.
  - do 3 apply String.app_inj in H. exact H.
  - do 2 apply String.app_inj in H. exact H.
Qed.

(** C7, as the code has it: a responder constructed with an empty port
    binds its listener to the address with the empty port, not to port 80;
    [Present] later sets the port field to 80, which changes what
    [GetAddress] reports but not the listener. *)
Theorem NewProviderServer_empty_port (net_Listen : string -> option error)
    (ifc : string) (s : ProviderServer) (domain token keyAuth : string) :
  NewProviderServer net_Listen ifc "" = Ok s ->
  exists l,
    listener s = Some l
    /\ laddr l = JoinHostPort ifc ""
    /\ laddr l <> JoinHostPort ifc "80"
    /\ listener (Present s domain token keyAuth) = Some l
    /\ GetAddress (Present s domain token keyAuth) = JoinHostPort ifc "80".
Proof.
  unfold NewProviderServer, GetAddress. simpl.
  destruct (net_Listen (JoinHostPort ifc "")); [discriminate|].
  unfold mux_HandleFunc. simpl. rewrite lookup_empty. intros [= <-].
  eexists. split; [reflexivity|]. simpl. split; [reflexivity|].
  split; [|split; reflexivity].
  intros H. apply JoinHostPort_port_inj in H. discriminate.
Qed.

Lemma NewProviderServer_empty_port_witness :
  exists l,
    listener demo_unset = Some l
    /\ laddr l = ":"
    /\ laddr l <> ":80"
    /\ listener (Present demo_unset "example.com" "tok1" "key1") = Some l
    /\ GetAddress (Present demo_unset "example.com" "tok1" "key1") = ":80".
Proof.
  apply (NewProviderServer_empty_port (fun _ => None) "" demo_unset
           "example.com" "tok1" "key1").
  reflexivity.
Defined.

(** ** CleanUp and the serving goroutine *)

Lemma step_handshake_inv (a : action) (t t' : threads) :
  handshake_inv t = true -> step a t = Some t' -> handshake_inv t' = true.
Proof.
  destruct t as [[[addr cl]|] g c p n]; [|discriminate].
  destruct a, g, c, cl, p; simpl; try discriminate;
    intros _ [= <-]; reflexivity.
Qed.

Lemma run_handshake_inv (acts : list action) (t t' : threads) :
  handshake_inv t = true -> run acts t = Some t' -> handshake_inv t' = true.
Proof.
  revert t. induction acts as [|a acts IH]; simpl; intros t Hinv.
  - intros [= <-]. exact Hinv.
  - destruct (step a t) as [t1|] eqn:E; [|discriminate].
    apply IH. exact (step_handshake_inv a t t1 Hinv E).
Qed.

(** Once the goroutine of [Serve] has exited it stays so, and no connection
    is accepted any more: the only requests still answered are those of the
    connections accepted before. *)
Lemma step_after_exit (a : action) (t t' : threads) :
  goroutine t = Exited -> step a t = Some t' ->
  goroutine t' = Exited /\ accepted t' = accepted t
  /\ served t <= served t'.
Proof.
  destruct t as [l g c p n]. unfold accepted. simpl. intros ->.
  destruct a, c, l, p; simpl; try discriminate; intros [= <-]; simpl;
    repeat split; lia.
Qed.

Lemma run_after_exit (acts : list action) (t t' : threads) :
  goroutine t = Exited -> run acts t = Some t' ->
  goroutine t' = Exited /\ accepted t' = accepted t
  /\ served t <= served t'.
Proof.
  revert t. induction acts as [|a acts IH]; simpl; intros t Hex.
  - intros [= <-]. split; [exact Hex|]. split; [reflexivity|lia].
  - destruct (step a t) as [t1|] eqn:E; [|discriminate].
    destruct (step_after_exit a t t1 Hex E) as (Hex1 & Ha1 & Hs1).
    intros Hrun. destruct (IH t1 Hex1 Hrun) as (H1 & H2 & H3).
    repeat split; [exact H1|congruence|lia].
Qed.

(** C6, as the code has it: on a responder without a listener, [CleanUp]
    returns at its first step. On a constructed responder, in every
    interleaving, once a call of [CleanUp] has returned the listener is
    closed and the goroutine of [Serve] has exited, having passed the send
    on [done]; from then on no connection is accepted. The connections
    accepted before the close keep their goroutines: their requests, and no
    others, may still be answered after [CleanUp] has returned. *)
Theorem CleanUp_synchronous (s : ProviderServer) :
  (listener s = None ->
     step ACleanUpCall (started s)
       = Some {| lst := None; goroutine := NoServer; caller := Returned;
                 pending := 0; served := 0 |})
  /\ (forall acts t,
        is_Some (listener s) ->
        run acts (started s) = Some t ->
        caller t = Returned ->
        goroutine t = Exited
        /\ is_closed (lst t) = true
        /\ forall acts' t',
             run acts' t = Some t' ->
             goroutine t' = Exited
             /\ accepted t' = accepted t
             /\ served t <= served t' <= served t + pending t).
Proof.
  split.
  - intros E. unfold started. rewrite E. reflexivity.
  - intros acts t [l E] Hrun Hret.
    assert (handshake_inv (started s) = true) as H0.
    { unfold started. rewrite E. reflexivity. }
    pose proof (run_handshake_inv acts _ _ H0 Hrun) as Hinv.
    assert (goroutine t = Exited /\ is_closed (lst t) = true) as [Hex Hcl].
    { destruct t as [[[addr cl]|] g c p n]; [|discriminate].
      simpl in *. subst c. destruct g, cl; try discriminate. auto. }
    split; [exact Hex|]. split; [exact Hcl|].
    intros acts' t' Hrun'.
    destruct (run_after_exit acts' t t' Hex Hrun') as (H1 & H2 & H3).
    split; [exact H1|]. split; [exact H2|].
    unfold accepted in H2. lia.
Qed.

Lemma CleanUp_synchronous_witness :
  goroutine demo_stopped = Exited
  /\ is_closed (lst demo_stopped) = true
  /\ forall acts' t',
       run acts' demo_stopped = Some t' ->
       goroutine t' = Exited
       /\ accepted t' = accepted demo_stopped
       /\ served demo_stopped <= served t'
            <= served demo_stopped + pending demo_stopped.
Proof.
  apply (proj2 (CleanUp_synchronous demo_idle)
           [AAccept; ACleanUpCall; ACleanUpClose; AServeClosed; ADone]
           demo_stopped).
  - exists {| laddr := "127.0.0.1:5002"; closed := false |}. reflexivity.
  - reflexivity.
  - reflexivity.
Defined.

(** C6 as stated fails: a connection accepted before the close is answered
    by its own goroutine after [CleanUp] has returned. *)
Lemma CleanUp_inflight_counterexample :
  ~ (forall (s : ProviderServer) (acts acts' : list action) (t t' : threads),
        is_Some (listener s) ->
        run acts (started s) = Some t ->
        caller t = Returned ->
        run acts' t = Some t' ->
        pending t = 0 /\ served t' = served t).
Proof.
  intros H.
  destruct (H demo_idle
              [AAccept; ACleanUpCall; ACleanUpClose; AServeClosed; ADone]
              [AAnswer] demo_stopped
              {| lst := lst demo_stopped; goroutine := Exited;
                 caller := Returned; pending := 0; served := 1 |})
    as [Hp _]; try reflexivity.
  - exists {| laddr := "127.0.0.1:5002"; closed := false |}. reflexivity.
  - discriminate Hp.
Qed.

(** * Further properties of the storage code *)

(** ** Paths *)

(** The four families of paths are injective in the identifier and do not
    meet. *)
Ltac path_neq :=
  let H := fresh in
  intros H; vm_compute in H; discriminate H.

Lemma certsPath_inj (a b : string) : certsPath a = certsPath b -> a = b.
Proof. unfold certsPath. apply String.app_inj. Qed.
Lemma jsonPath_inj (a b : string) : jsonPath a = jsonPath b -> a = b.
Proof. unfold jsonPath. apply String.app_inj. Qed.
Lemma privateKeyPath_inj (a b : string) :
  privateKeyPath a = privateKeyPath b -> a = b.
Proof. unfold privateKeyPath. apply String.app_inj. Qed.

Lemma certsPath_jsonPath (a b : string) : certsPath a <> jsonPath b.
Proof. path_neq. Qed.
Lemma certsPath_accountPath (a b : string) : certsPath a <> accountPath b.
Proof. path_neq. Qed.
Lemma certsPath_privateKeyPath (a b : string) : certsPath a <> privateKeyPath b.
Proof. path_neq. Qed.
Lemma jsonPath_accountPath (a b : string) : jsonPath a <> accountPath b.
Proof. path_neq. Qed.
Lemma jsonPath_privateKeyPath (a b : string) : jsonPath a <> privateKeyPath b.
Proof. path_neq. Qed.
Lemma accountPath_privateKeyPath (a b : string) :
  accountPath a <> privateKeyPath b.
Proof. path_neq. Qed.

(** ** CertificatesStorage: what a save leaves behind *)

(** The world after a [SaveResource] in which nothing failed. *)
Lemma SaveResource_world (X : Externals) (R : Resource) (w : world) (b : string) :
  client_Get X = None ->
  write_fails X (certsPath (Domain R)) = None ->
  write_fails X (jsonPath (Domain R)) = None ->
  json_MarshalResource X R = (b, None) ->
  SaveResource X R w =
    (Ok tt,
     {| kv := <[jsonPath (Domain R) := metadata b]>
                (<[certsPath (Domain R) := rawMaterial R]> (kv w));
        draws := draws w;
        trace := (trace w ++ [EvWrite (certsPath (Domain R)) (rawMaterial R)])
                   ++ [EvWrite (jsonPath (Domain R)) (metadata b)] |}).
Proof.
  intros Hc Hw1 Hw2 Hm. unfold SaveResource. rewrite Hc. unfold_M. simpl.
  rewrite Hw1. simpl. rewrite Hm. simpl. rewrite Hw2. reflexivity.
Qed.

(** X1: [ReadResource] never returns normally, whatever Vault holds and the
    collaborators answer: the secret is nil, or the read failed, or the
    assertion to [[]byte] fails on what came back. So [ReadFile] and
    [ReadCertificate] never return either, with a certificate or with the
    error for an unknown extension. *)
Theorem ReadResource_never_returns (X : Externals)
    (P : string -> option (list x509Certificate) * option error)
    (D ext : string) (w : world) :
  (forall R, (ReadResource X D w).1 <> Ok R)
  /\ (forall r, (ReadFile X D ext w).1 <> Ok r)
  /\ (forall r, (ReadCertificate X P D ext w).1 <> Ok r).
Proof.
  assert (exists msg w',
            ReadResource X D w = (Fatal msg, w')
            \/ ReadResource X D w = (Panic msg, w')) as (msg & w' & Hread).
  { unfold ReadResource. destruct (client_Get X); [eauto|].
    unfold_M. simpl. destruct (read_fails X _); [eauto|]. simpl.
    destruct (kv w !! jsonPath D) as [payload|]; simpl; [|eauto].
    rewrite assert_bytes_transport. eauto. }
  unfold ReadCertificate, ReadFile, mbind, M_bind.
  destruct Hread as [-> | ->]; simpl; repeat split; discriminate.
Qed.

(** X2: for a domain whose metadata path holds nothing, [ReadFile] and
    [ReadCertificate] panic on the nil secret whatever the extension: the
    unsupported-extension error is only reached once the resource has been
    read. *)
Theorem ReadFile_never_saved (X : Externals)
    (P : string -> option (list x509Certificate) * option error)
    (D ext : string) (w : world) :
  client_Get X = None ->
  read_fails X (jsonPath D) = None ->
  kv w !! jsonPath D = None ->
  (ReadFile X D ext w).1 = Panic nil_deref
  /\ (ReadCertificate X P D ext w).1 = Panic nil_deref.
Proof.
  intros Hc Hr Hkv. unfold ReadCertificate, ReadFile, ReadResource.
  rewrite Hc. unfold_M. simpl. rewrite Hr. simpl. rewrite Hkv. simpl.
  split; reflexivity.
Qed.

Lemma ReadFile_never_saved_witness :
  (ReadFile demo "example.com" ".pem" empty_world).1 = Panic nil_deref
  /\ (ReadCertificate demo demo_ParsePEMBundle "example.com" ".pem"
        empty_world).1 = Panic nil_deref.
Proof.
  apply (ReadFile_never_saved demo demo_ParsePEMBundle "example.com" ".pem"
           empty_world); reflexivity.
Defined.

(** X3: after a [SaveResource] that met no failure, [ExistsFile] answers true
    for the domain, whatever extension is asked for. *)
Theorem ExistsFile_after_save (X : Externals) (R : Resource) (w : world)
    (b ext : string) :
  client_Get X = None ->
  write_fails X (certsPath (Domain R)) = None ->
  write_fails X (jsonPath (Domain R)) = None ->
  read_fails X (jsonPath (Domain R)) = None ->
  json_MarshalResource X R = (b, None) ->
  exists w1,
    SaveResource X R w = (Ok tt, w1)
    /\ (ExistsFile X (Domain R) ext w1).1 = Ok true.
Proof.
  intros Hc Hw1 Hw2 Hr Hm.
  destruct (SaveResource_ok X R w b Hc Hw1 Hw2 Hm) as (w1 & Hsave & Hkv).
  exists w1. split; [exact Hsave|].
  unfold ExistsFile. rewrite Hc. unfold_M. simpl. rewrite Hr. simpl.
  rewrite Hkv. reflexivity.
Qed.

Lemma ExistsFile_after_save_witness :
  exists w1,
    SaveResource demo demo_resource empty_world = (Ok tt, w1)
    /\ (ExistsFile demo "example.com" ".crt" w1).1 = Ok true.
Proof.
  apply (ExistsFile_after_save demo demo_resource empty_world
           (demo_MarshalResource demo_resource).1 ".crt"); reflexivity.
Defined.

(** X4: a second [SaveResource] for the same domain replaces both entries in
    full: the store then holds the second resource's raw material and the
    second resource's marshalled record. *)
Theorem SaveResource_overwrites (X : Externals) (R1 R2 : Resource) (w : world)
    (b1 b2 : string) :
  client_Get X = None ->
  write_fails X (certsPath (Domain R1)) = None ->
  write_fails X (jsonPath (Domain R1)) = None ->
  Domain R2 = Domain R1 ->
  json_MarshalResource X R1 = (b1, None) ->
  json_MarshalResource X R2 = (b2, None) ->
  exists w1 w2,
    SaveResource X R1 w = (Ok tt, w1)
    /\ SaveResource X R2 w1 = (Ok tt, w2)
    /\ kv w2 !! certsPath (Domain R1) = Some (rawMaterial R2)
    /\ kv w2 !! jsonPath (Domain R1) = Some (metadata b2).
Proof.
  intros Hc Hw1 Hw2 Hd Hm1 Hm2.
  eexists. eexists.
  split; [apply (SaveResource_world X R1 w b1 Hc Hw1 Hw2 Hm1)|].
  split.
  { apply (SaveResource_world X R2 _ b2 Hc); rewrite ?Hd; assumption. }
  simpl. rewrite Hd. split; [|apply lookup_insert_eq].
  rewrite lookup_insert_ne.
  - apply lookup_insert_eq.
  - intros E. symmetry in E. exact (certsPath_jsonPath _ _ E).
Qed.

Lemma SaveResource_overwrites_witness :
  exists w1 w2,
    SaveResource demo demo_resource empty_world = (Ok tt, w1)
    /\ SaveResource demo demo_renewed w1 = (Ok tt, w2)
    /\ kv w2 !! certsPath "example.com" = Some (rawMaterial demo_renewed)
    /\ kv w2 !! jsonPath "example.com"
         = Some (metadata (demo_MarshalResource demo_renewed).1).
Proof.
  apply (SaveResource_overwrites demo demo_resource demo_renewed empty_world
           (demo_MarshalResource demo_resource).1
           (demo_MarshalResource demo_renewed).1); reflexivity.
Defined.

(** X5: [SaveResource] is not atomic. When the write of the record fails
    after the write of the raw material went through, the call is fatal with
    the message that names the record, the raw material of the domain has
    been replaced, and the record is the one from before. *)
Theorem SaveResource_record_write_fails (X : Externals) (R : Resource)
    (w : world) (b : string) (e : error) :
  client_Get X = None ->
  write_fails X (certsPath (Domain R)) = None ->
  json_MarshalResource X R = (b, None) ->
  write_fails X (jsonPath (Domain R)) = Some e ->
  exists w',
    SaveResource X R w =
      (Fatal ("Unable to save CertResource for domain " +:+ Domain R
              +:+ " " +:+ e), w')
    /\ kv w' !! certsPath (Domain R) = Some (rawMaterial R)
    /\ kv w' !! jsonPath (Domain R) = kv w !! jsonPath (Domain R).
Proof.
  intros Hc Hw1 Hm Hw2. unfold SaveResource. rewrite Hc. unfold_M. simpl.
  rewrite Hw1. simpl. rewrite Hm. simpl. rewrite Hw2. simpl.
  eexists. split; [reflexivity|]. simpl.
  split; [apply lookup_insert_eq|].
  apply lookup_insert_ne. apply certsPath_jsonPath.
Qed.

Lemma SaveResource_record_write_fails_witness :
  exists w',
    SaveResource demo_json_down demo_resource empty_world =
      (Fatal ("Unable to save CertResource for domain " +:+ "example.com"
              +:+ " " +:+ "permission denied"), w')
    /\ kv w' !! certsPath "example.com" = Some (rawMaterial demo_resource)
    /\ kv w' !! jsonPath "example.com" = kv empty_world !! jsonPath "example.com".
Proof.
  apply (SaveResource_record_write_fails demo_json_down demo_resource
           empty_world (demo_MarshalResource demo_resource).1
           "permission denied"); reflexivity.
Defined.

(** X6: whatever the collaborators answer, [SaveResource] changes the store
    at no path other than the two entries of the resource's domain, and it
    changes the record entry only when it returns normally. *)
Theorem SaveResource_frame (X : Externals) (R : Resource) (w : world) :
  (forall p, p <> certsPath (Domain R) -> p <> jsonPath (Domain R) ->
     kv (SaveResource X R w).2 !! p = kv w !! p)
  /\ ((SaveResource X R w).1 <> Ok tt ->
      kv (SaveResource X R w).2 !! jsonPath (Domain R)
        = kv w !! jsonPath (Domain R)).
Proof.
  unfold SaveResource.
  destruct (client_Get X); [split; reflexivity|]. unfold_M. simpl.
  destruct (write_fails X (certsPath (Domain R))); [split; reflexivity|]. simpl.
  destruct (json_MarshalResource X R) as [b [e|]]; simpl.
  - split.
    + intros p H1 _. apply lookup_insert_ne. congruence.
    + intros _. apply lookup_insert_ne. apply certsPath_jsonPath.
  - destruct (write_fails X (jsonPath (Domain R))); simpl.
    + split.
      * intros p H1 _. apply lookup_insert_ne. congruence.
      * intros _. apply lookup_insert_ne. apply certsPath_jsonPath.
    + split.
      * intros p H1 H2. rewrite lookup_insert_ne by congruence.
        apply lookup_insert_ne. congruence.
      * intros H. contradiction.
Qed.

Lemma SaveResource_frame_witness :
  kv (SaveResource demo_json_down demo_resource empty_world).2
    !! jsonPath (Domain demo_resource)
  = kv empty_world !! jsonPath (Domain demo_resource).
Proof.
  apply (proj2 (SaveResource_frame demo_json_down demo_resource empty_world)).
  vm_compute. discriminate.
Defined.

(** X7: when the Vault client cannot be obtained, every operation of both
    storages ends in [log.Fatalf] before it reads or writes anything; this
    includes the two existence probes, which swallow only the error of the
    read itself. *)
Theorem client_failure_is_fatal (X : Externals) (e : error) (w : world)
    (s : AccountsStorage) (R : Resource) (a : Account) (D ext : string)
    (pk : option PrivateKey) (kt : KeyType) :
  client_Get X = Some e ->
  ExistsFile X D ext w = client_fatal e w
  /\ ReadResource X D w = client_fatal e w
  /\ ReadFile X D ext w = client_fatal e w
  /\ SaveResource X R w = client_fatal e w
  /\ ExistsAccountFilePath X s w = client_fatal e w
  /\ Save X s a w = client_fatal e w
  /\ LoadAccount X s pk w = client_fatal e w
  /\ GetPrivateKey X s kt w = client_fatal e w.
Proof.
  intros Hc. unfold client_fatal.
  unfold ExistsFile, ReadFile, ReadResource, SaveResource,
    ExistsAccountFilePath, Save, LoadAccount, GetPrivateKey.
  rewrite Hc. unfold_M. repeat split; reflexivity.
Qed.

Lemma client_failure_is_fatal_witness :
  ExistsFile demo_sealed "example.com" ".crt" empty_world
    = (Fatal ("vault: client: " +:+ "vault is sealed"), empty_world)
  /\ ExistsAccountFilePath demo_sealed demo_storage empty_world
       = (Fatal ("vault: client: " +:+ "vault is sealed"), empty_world).
Proof.
  destruct (client_failure_is_fatal demo_sealed "vault is sealed" empty_world
              demo_storage demo_resource
              {| Email := ""; Registration := None; key := None |}
              "example.com" ".crt" None RSA2048 eq_refl)
    as (H1 & _ & _ & _ & H5 & _).
  split; [exact H1|exact H5].
Defined.

(** ** AccountsStorage: further behaviour *)

(** X9: [ExistsAccountFilePath] answers false for a user with no stored
    record and when the read fails, and true after a [Save] of an account
    whose email is the storage's user. *)
Theorem ExistsAccountFilePath_after_Save (X : Externals) (s : AccountsStorage)
    (a : Account) (w : world) (json : string) :
  client_Get X = None ->
  json_MarshalAccount X a = (json, None) ->
  write_fails X (accountPath (Email a)) = None ->
  Email a = userID s ->
  (forall e, read_fails X (accountPath (userID s)) = Some e ->
     (ExistsAccountFilePath X s w).1 = Ok false)
  /\ (read_fails X (accountPath (userID s)) = None ->
      (kv w !! accountPath (userID s) = None ->
         (ExistsAccountFilePath X s w).1 = Ok false)
      /\ exists w',
           Save X s a w = (Ok None, w')
           /\ (ExistsAccountFilePath X s w').1 = Ok true).
Proof.
  intros Hc Hm Hw He. split; [|split].
  - intros e Hr. unfold ExistsAccountFilePath. rewrite Hc. unfold_M. simpl.
    rewrite Hr. reflexivity.
  - intros Hkv. unfold ExistsAccountFilePath. rewrite Hc. unfold_M. simpl.
    rewrite H. simpl. rewrite Hkv. reflexivity.
  - eexists. split; [apply (Save_ok X s a w json Hc Hm Hw)|].
    unfold ExistsAccountFilePath. rewrite Hc. unfold_M. simpl.
    rewrite H. simpl. rewrite He, lookup_insert_eq. reflexivity.
Qed.

Lemma ExistsAccountFilePath_after_Save_witness :
  (ExistsAccountFilePath demo demo_storage empty_world).1 = Ok false
  /\ exists w',
       Save demo demo_storage demo_account empty_world = (Ok None, w')
       /\ (ExistsAccountFilePath demo demo_storage w').1 = Ok true.
Proof.
  destruct (ExistsAccountFilePath_after_Save demo demo_storage demo_account
              empty_world _ eq_refl eq_refl eq_refl eq_refl) as [_ H].
  destruct (H eq_refl) as [H1 H2].
  split; [apply H1; reflexivity|exact H2].
Defined.

(** X10: [LoadAccount] for a user with no stored record panics on the nil
    secret after its one read: it neither reports a fatal error nor tries a
    recovery, and the store is as before. *)
Theorem LoadAccount_never_saved (X : Externals) (s : AccountsStorage)
    (pk : option PrivateKey) (w : world) :
  client_Get X = None ->
  read_fails X (accountPath (userID s)) = None ->
  kv w !! accountPath (userID s) = None ->
  LoadAccount X s pk w =
    (Panic nil_deref,
     {| kv := kv w; draws := draws w;
        trace := trace w ++ [EvRead (accountPath (userID s))] |}).
Proof.
  intros Hc Hr Hkv. unfold LoadAccount. rewrite Hc. unfold_M. simpl.
  rewrite Hr. simpl. rewrite Hkv. reflexivity.
Qed.

Lemma LoadAccount_never_saved_witness :
  (LoadAccount demo demo_storage None empty_world).1 = Panic nil_deref.
Proof.
  rewrite (LoadAccount_never_saved demo demo_storage None empty_world
             eq_refl eq_refl eq_refl).
  reflexivity.
Defined.

(** X11: on a stored record whose registration has a status, [LoadAccount]
    returns the decoded account with the supplied key attached, after its one
    read: the authority is not called, nothing is written, no key is drawn. *)
Theorem LoadAccount_usable_is_quiet (X : Externals) (s : AccountsStorage)
    (pk : option PrivateKey) (w : world) (str : string) (acc : Account)
    (reg : RegistrationResource) :
  client_Get X = None ->
  read_fails X (accountPath (userID s)) = None ->
  kv w !! accountPath (userID s) = Some (wrapped str) ->
  json_UnmarshalAccount X str = (acc, None) ->
  Registration acc = Some reg ->
  Status reg <> "" ->
  exists w',
    LoadAccount X s pk w =
      (Ok {| Email := Email acc; Registration := Some reg; key := pk |}, w')
    /\ kv w' = kv w
    /\ draws w' = draws w
    /\ trace w' = (trace w ++ [EvRead (accountPath (userID s))])%list.
Proof.
  intros Hc Hr Hkv Hu Hreg Hst.
  assert (registration_missing acc = false) as Hm.
  { unfold registration_missing. rewrite Hreg.
    apply bool_decide_eq_false. exact Hst. }
  rewrite (LoadAccount_usable X s pk w str acc Hc Hr Hkv Hu Hm), Hreg.
  eexists. split; [reflexivity|]. simpl. auto.
Qed.

Lemma LoadAccount_usable_is_quiet_witness :
  exists w',
    LoadAccount demo demo_storage (Some (ECKey "K")) registered_world =
      (Ok {| Email := "hubert@hubert.com";
             Registration := Some {| URI := "https://ca.test/acct/7";
                                     Status := "valid" |};
             key := Some (ECKey "K") |}, w')
    /\ kv w' = kv registered_world
    /\ draws w' = draws registered_world
    /\ trace w' = (trace registered_world
                     ++ [EvRead (accountPath (userID demo_storage))])%list.
Proof.
  apply (LoadAccount_usable_is_quiet demo demo_storage (Some (ECKey "K"))
           registered_world (demo_MarshalAccount demo_account).1
           demo_account {| URI := "https://ca.test/acct/7"; Status := "valid" |});
    try reflexivity.
  simpl. discriminate.
Defined.

(** X12: the recovery does not stick when the stored record names another
    email than the storage's user (an empty one, say): the recovered account
    is written under the record's email, the record [LoadAccount] reads stays
    as it was, and the next [LoadAccount] asks the authority again and writes
    again. *)
Theorem LoadAccount_recovery_repeats (X : Externals) (s : AccountsStorage)
    (pk : option PrivateKey) (w : world) (str : string) (acc : Account)
    (reg : option RegistrationResource) (json : string) :
  client_Get X = None ->
  read_fails X (accountPath (userID s)) = None ->
  kv w !! accountPath (userID s) = Some (wrapped str) ->
  json_UnmarshalAccount X str = (acc, None) ->
  registration_missing acc = true ->
  lego_NewClient X (recoveryConfig (ctx s) pk) = None ->
  ResolveAccountByKey X (recoveryConfig (ctx s) pk) = (reg, None) ->
  json_MarshalAccount X (recovered acc reg pk) = (json, None) ->
  write_fails X (accountPath (Email acc)) = None ->
  Email acc <> userID s ->
  exists w1 w2,
    LoadAccount X s pk w = (Ok (recovered acc reg pk), w1)
    /\ kv w1 !! accountPath (userID s) = Some (wrapped str)
    /\ LoadAccount X s pk w1 = (Ok (recovered acc reg pk), w2)
    /\ trace w2 = (trace w1
                     ++ [EvRead (accountPath (userID s));
                         EvNewClient (recoveryConfig (ctx s) pk);
                         EvResolveAccountByKey (recoveryConfig (ctx s) pk);
                         EvWrite (accountPath (Email acc)) (wrapped json)])%list.
Proof.
  intros Hc Hr Hkv Hu Hmiss Hn Hres Hm Hw Hne.
  pose proof (LoadAccount_recovery_ok X s pk w str acc Hc Hr Hkv Hu Hmiss
                reg json Hn Hres Hm Hw) as H1.
  eexists. eexists. split; [exact H1|].
  assert (<[accountPath (Email acc) := wrapped json]> (kv w)
            !! accountPath (userID s) = Some (wrapped str)) as Hkv1.
  { rewrite lookup_insert_ne; [exact Hkv|].
    intros E. apply Hne. exact (accountPath_inj _ _ E). }
  split; [exact Hkv1|].
  split.
  - match goal with
    | |- LoadAccount X s pk ?w1 = _ =>
        rewrite (LoadAccount_recovery_ok X s pk w1 str acc Hc Hr Hkv1 Hu Hmiss
                   reg json Hn Hres Hm Hw)
    end.
    reflexivity.
  - reflexivity.
Qed.

Lemma LoadAccount_recovery_repeats_witness :
  exists w1 w2,
    LoadAccount demo demo_storage (Some (RSAKey "A")) blank_world
      = (Ok (recovered {| Email := ""; Registration := None; key := None |}
               (Some {| URI := "https://ca.test/acct/1"; Status := "valid" |})
               (Some (RSAKey "A"))), w1)
    /\ LoadAccount demo demo_storage (Some (RSAKey "A")) w1
         = (Ok (recovered {| Email := ""; Registration := None; key := None |}
                  (Some {| URI := "https://ca.test/acct/1"; Status := "valid" |})
                  (Some (RSAKey "A"))), w2)
    /\ length (filter is_resolve (trace w2)) = 2.
Proof.
  destruct (LoadAccount_recovery_repeats demo demo_storage (Some (RSAKey "A"))
              blank_world ""
              {| Email := ""; Registration := None; key := None |}
              (Some {| URI := "https://ca.test/acct/1"; Status := "valid" |})
              _ eq_refl eq_refl eq_refl eq_refl eq_refl eq_refl eq_refl
              eq_refl eq_refl)
    as (w1 & w2 & H1 & _ & H2 & H3).
  { simpl. discriminate. }
  exists w1, w2. split; [exact H1|]. split; [exact H2|].
  rewrite H3. injection H1 as <-. reflexivity.
Defined.

(** X13: the recovery sticks when the authority's answer is a registration
    with a status, the stored record carries the storage's user as its email
    and the codec gives the written account back: the next
    [LoadAccount] returns the same account after one read, without calling
    the authority and without writing. *)
Theorem LoadAccount_recovery_sticks (X : Externals) (s : AccountsStorage)
    (pk : option PrivateKey) (w : world) (str : string) (acc acc' : Account)
    (reg : RegistrationResource) (json : string) :
  client_Get X = None ->
  read_fails X (accountPath (userID s)) = None ->
  kv w !! accountPath (userID s) = Some (wrapped str) ->
  json_UnmarshalAccount X str = (acc, None) ->
  registration_missing acc = true ->
  lego_NewClient X (recoveryConfig (ctx s) pk) = None ->
  ResolveAccountByKey X (recoveryConfig (ctx s) pk) = (Some reg, None) ->
  json_MarshalAccount X (recovered acc (Some reg) pk) = (json, None) ->
  write_fails X (accountPath (Email acc)) = None ->
  Email acc = userID s ->
  Status reg <> "" ->
  json_UnmarshalAccount X json = (acc', None) ->
  Email acc' = Email acc ->
  Registration acc' = Some reg ->
  exists w1 w2,
    LoadAccount X s pk w = (Ok (recovered acc (Some reg) pk), w1)
    /\ LoadAccount X s pk w1 = (Ok (recovered acc (Some reg) pk), w2)
    /\ kv w2 = kv w1
    /\ trace w2 = (trace w1 ++ [EvRead (accountPath (userID s))])%list.
Proof.
  intros Hc Hr Hkv Hu Hmiss Hn Hres Hm Hw He Hst Hu' He' Hreg'.
  pose proof (LoadAccount_recovery_ok X s pk w str acc Hc Hr Hkv Hu Hmiss
                (Some reg) json Hn Hres Hm Hw) as H1.
  eexists. eexists. split; [exact H1|].
  assert (registration_missing acc' = false) as Hm'.
  { unfold registration_missing. rewrite Hreg'.
    apply bool_decide_eq_false. exact Hst. }
  rewrite (LoadAccount_usable X s pk _ json acc' Hc Hr).
  - unfold recovered. rewrite He', Hreg'. split; [reflexivity|].
    split; reflexivity.
  - simpl. rewrite He. apply lookup_insert_eq.
  - exact Hu'.
  - exact Hm'.
Qed.

Lemma LoadAccount_recovery_sticks_witness :
  exists w1 w2,
    LoadAccount demo demo_storage (Some (RSAKey "A")) orphan_world
      = (Ok (recovered {| Email := "hubert@hubert.com"; Registration := None;
                          key := None |}
               (Some {| URI := "https://ca.test/acct/1"; Status := "valid" |})
               (Some (RSAKey "A"))), w1)
    /\ LoadAccount demo demo_storage (Some (RSAKey "A")) w1
         = (Ok (recovered {| Email := "hubert@hubert.com"; Registration := None;
                             key := None |}
                  (Some {| URI := "https://ca.test/acct/1"; Status := "valid" |})
                  (Some (RSAKey "A"))), w2)
    /\ kv w2 = kv w1
    /\ trace w2 = (trace w1
                     ++ [EvRead (accountPath (userID demo_storage))])%list.
Proof.
  apply (LoadAccount_recovery_sticks demo demo_storage (Some (RSAKey "A"))
           orphan_world "hubert@hubert.com"
           {| Email := "hubert@hubert.com"; Registration := None; key := None |}
           {| Email := "hubert@hubert.com";
              Registration := Some {| URI := "https://ca.test/acct/1";
                                      Status := "valid" |};
              key := None |}
           {| URI := "https://ca.test/acct/1"; Status := "valid" |}
           (demo_MarshalAccount
              (recovered {| Email := "hubert@hubert.com"; Registration := None;
                            key := None |}
                 (Some {| URI := "https://ca.test/acct/1"; Status := "valid" |})
                 (Some (RSAKey "A")))).1);
    try reflexivity.
  simpl. discriminate.
Defined.

(** [loadPrivateKey] on an input without a block, and on a block of another
    type, for use below. *)
Lemma loadPrivateKey_no_block_aux (X : Externals) (keyBytes : string) :
  pem_Decode X keyBytes = None -> loadPrivateKey X keyBytes = Panic nil_deref.
Proof. unfold loadPrivateKey. intros ->. reflexivity. Qed.

Lemma loadPrivateKey_unknown_aux (X : Externals) (keyBytes : string)
    (blk : pemBlock) :
  pem_Decode X keyBytes = Some blk ->
  Type_ blk <> "RSA PRIVATE KEY" -> Type_ blk <> "EC PRIVATE KEY" ->
  loadPrivateKey X keyBytes = Ok (None, Some "unknown private key type").
Proof.
  intros Hd H1 H2. unfold loadPrivateKey. rewrite Hd.
  destruct (decide (Type_ blk = "RSA PRIVATE KEY")); [contradiction|].
  destruct (decide (Type_ blk = "EC PRIVATE KEY")); [contradiction|].
  reflexivity.
Qed.

(** X14: [GetPrivateKey] draws a key only when Vault answered that the key
    path holds nothing. When the read fails the call is fatal without a draw
    and without a write; when the draw itself fails, the call is fatal and
    nothing is written. *)
Theorem GetPrivateKey_failures (X : Externals) (s : AccountsStorage)
    (kt : KeyType) (w : world) :
  client_Get X = None ->
  (forall e, read_fails X (privateKeyPath (userID s)) = Some e ->
     exists msg w',
       GetPrivateKey X s kt w = (Fatal msg, w')
       /\ kv w' = kv w /\ draws w' = draws w
       /\ trace w' = (trace w ++ [EvRead (privateKeyPath (userID s))])%list)
  /\ (forall k e,
        read_fails X (privateKeyPath (userID s)) = None ->
        kv w !! privateKeyPath (userID s) = None ->
        GeneratePrivateKey X kt (draws w) = (k, Some e) ->
        exists w',
          GetPrivateKey X s kt w =
            (Fatal ("Could not generate RSA private account key for account "
                    +:+ userID s +:+ ": " +:+ e), w')
          /\ kv w' = kv w
          /\ filter is_write (trace w') = filter is_write (trace w)).
Proof.
  intros Hc. split.
  - intros e Hr. unfold GetPrivateKey. rewrite Hc. unfold_M. simpl.
    rewrite Hr. simpl. eexists. eexists. split; [reflexivity|]. simpl. auto.
  - intros k e Hr Hkv Hg. unfold GetPrivateKey. rewrite Hc. unfold_M. simpl.
    rewrite Hr. simpl. rewrite Hkv. simpl. rewrite Hg. simpl.
    eexists. split; [reflexivity|]. simpl. split; [reflexivity|].
    rewrite !filter_app. simpl. rewrite !app_nil_r. reflexivity.
Qed.

Lemma GetPrivateKey_failures_witness :
  exists msg w',
    GetPrivateKey demo_keys_unreadable demo_storage RSA2048 empty_world
      = (Fatal msg, w')
    /\ kv w' = kv empty_world /\ draws w' = draws empty_world
    /\ trace w' = (trace empty_world
                     ++ [EvRead (privateKeyPath (userID demo_storage))])%list.
Proof.
  apply (proj1 (GetPrivateKey_failures demo_keys_unreadable demo_storage
                  RSA2048 empty_world eq_refl) "connection refused").
  reflexivity.
Defined.

(** X15: a stored key that cannot be used is never replaced. When the stored
    text holds no PEM block [GetPrivateKey] panics; when its block has a type
    other than the RSA and EC labels the call is fatal with the unknown-type
    error; in both cases no key is drawn and the store is as before. *)
Theorem GetPrivateKey_stored_unusable (X : Externals) (s : AccountsStorage)
    (kt : KeyType) (w : world) (pem : string) :
  client_Get X = None ->
  read_fails X (privateKeyPath (userID s)) = None ->
  kv w !! privateKeyPath (userID s) = Some (wrapped pem) ->
  (pem_Decode X pem = None ->
     exists w', GetPrivateKey X s kt w = (Panic nil_deref, w')
                /\ kv w' = kv w /\ draws w' = draws w)
  /\ (forall blk,
        pem_Decode X pem = Some blk ->
        Type_ blk <> "RSA PRIVATE KEY" -> Type_ blk <> "EC PRIVATE KEY" ->
        exists w',
          GetPrivateKey X s kt w =
            (Fatal ("Could not load RSA private key from file " +:+ userID s
                    +:+ ": " +:+ "unknown private key type"), w')
          /\ kv w' = kv w /\ draws w' = draws w).
Proof.
  intros Hc Hr Hkv.
  assert (forall r,
            loadPrivateKey X pem = r ->
            GetPrivateKey X s kt w =
              (match r with
               | Ok (privateKey, Some err) =>
                   Fatal ("Could not load RSA private key from file "
                          +:+ userID s +:+ ": " +:+ err)
               | Ok (privateKey, None) => Ok privateKey
               | Fatal msg => Fatal msg
               | Panic msg => Panic msg
               end,
               {| kv := kv w; draws := draws w;
                  trace := trace w ++ [EvRead (privateKeyPath (userID s))] |}))
    as Hget.
  { intros r Hl. unfold GetPrivateKey. rewrite Hc. unfold_M. simpl.
    rewrite Hr. simpl. rewrite Hkv. take_wrapped. rewrite Hl.
    destruct r as [[k [e|]]| |]; reflexivity. }
  split.
  - intros Hd. eexists. split.
    + rewrite (Hget _ (loadPrivateKey_no_block_aux X pem Hd)). reflexivity.
    + simpl. auto.
  - intros blk Hd H1 H2. eexists. split.
    + rewrite (Hget _ (loadPrivateKey_unknown_aux X pem blk Hd H1 H2)).
      reflexivity.
    + simpl. auto.
Qed.

Lemma GetPrivateKey_stored_unusable_witness :
  exists w',
    GetPrivateKey demo demo_storage RSA2048 pkcs8_world =
      (Fatal ("Could not load RSA private key from file " +:+ "hubert@hubert.com"
              +:+ ": " +:+ "unknown private key type"), w')
    /\ kv w' = kv pkcs8_world /\ draws w' = draws pkcs8_world.
Proof.
  apply (proj2 (GetPrivateKey_stored_unusable demo demo_storage RSA2048
                  pkcs8_world ("PRIVATE KEY" +:+ nl +:+ "abc")
                  eq_refl eq_refl eq_refl)
           {| Type_ := "PRIVATE KEY"; Bytes := "abc" |}).
  - reflexivity.
  - simpl. discriminate.
  - simpl. discriminate.
Defined.

(** X16: whatever the collaborators answer, [GetPrivateKey] changes the
    store at no path other than the key path of the storage's user, and when
    that path already holds an entry it changes nothing and draws no key. *)
Theorem GetPrivateKey_frame (X : Externals) (s : AccountsStorage)
    (kt : KeyType) (w : world) :
  (forall p, p <> privateKeyPath (userID s) ->
     kv (GetPrivateKey X s kt w).2 !! p = kv w !! p)
  /\ (is_Some (kv w !! privateKeyPath (userID s)) ->
      kv (GetPrivateKey X s kt w).2 = kv w
      /\ draws (GetPrivateKey X s kt w).2 = draws w).
Proof.
  unfold GetPrivateKey.
  destruct (client_Get X); [split; [reflexivity|split; reflexivity]|].
  unfold_M. simpl.
  destruct (read_fails X _); [split; [reflexivity|split; reflexivity]|]. simpl.
  destruct (kv w !! privateKeyPath (userID s)) as [payload|] eqn:E; simpl.
  - assert (forall r : result (option PrivateKey) * world,
              (exists o, r = (o, {| kv := kv w; draws := draws w;
                                    trace := trace w
                                      ++ [EvRead (privateKeyPath (userID s))] |})) ->
              (forall p, p <> privateKeyPath (userID s) ->
                 kv r.2 !! p = kv w !! p)
              /\ (is_Some (Some payload) -> kv r.2 = kv w /\ draws r.2 = draws w))
      as Hsame.
    { intros r [o ->]. simpl. auto. }
    apply Hsame.
    destruct (assert_map _) as [d|]; [|eauto].
    destruct (assert_string _) as [str|]; [|eauto].
    destruct (loadPrivateKey X str) as [[k [e|]]| |]; eauto.
  - split; [|intros [? [=]]].
    intros p Hp.
    destruct (GeneratePrivateKey X kt (draws w)) as [k [e|]]; [reflexivity|].
    simpl. destruct (PEMBlock X k); [|reflexivity]. simpl.
    destruct (write_fails X _); [reflexivity|]. simpl.
    apply lookup_insert_ne. congruence.
Qed.

Lemma GetPrivateKey_frame_witness :
  kv (GetPrivateKey demo demo_storage RSA2048 pkcs8_world).2 = kv pkcs8_world
  /\ draws (GetPrivateKey demo demo_storage RSA2048 pkcs8_world).2
       = draws pkcs8_world.
Proof.
  apply (proj2 (GetPrivateKey_frame demo demo_storage RSA2048 pkcs8_world)).
  exists (wrapped ("PRIVATE KEY" +:+ nl +:+ "abc")). reflexivity.
Defined.

(** X17: [tryRecoverRegistration] always returns: it never reads or writes
    Vault and never draws a key; with an error it returns a nil
    registration; and when the client cannot be built the authority is not
    asked to resolve the account. *)
Theorem tryRecoverRegistration_effects (X : Externals) (c : Context)
    (pk : option PrivateKey) (w : world) :
  exists reg err w',
    tryRecoverRegistration X c pk w = (Ok (reg, err), w')
    /\ kv w' = kv w /\ draws w' = draws w
    /\ (is_Some err -> reg = None)
    /\ (is_Some (lego_NewClient X (recoveryConfig c pk)) ->
        trace w' = (trace w ++ [EvNewClient (recoveryConfig c pk)])%list)
    /\ (lego_NewClient X (recoveryConfig c pk) = None ->
        trace w' = (trace w ++ [EvNewClient (recoveryConfig c pk);
                                EvResolveAccountByKey (recoveryConfig c pk)])%list
        /\ err = (ResolveAccountByKey X (recoveryConfig c pk)).2).
Proof.
  unfold tryRecoverRegistration. unfold_M. simpl.
  destruct (lego_NewClient X (recoveryConfig c pk)) as [e|] eqn:En; simpl.
  - eexists. eexists. eexists. split; [reflexivity|]. simpl.
    split; [reflexivity|]. split; [reflexivity|]. split; [reflexivity|].
    split; [reflexivity|]. discriminate.
  - destruct (ResolveAccountByKey X (recoveryConfig c pk)) as [reg [e|]];
      simpl; eexists; eexists; eexists; (split; [reflexivity|]); simpl;
      rewrite <- app_assoc; simpl.
    + split; [reflexivity|]. split; [reflexivity|]. split; [reflexivity|].
      split; [intros [? [=]]|]. intros _. split; reflexivity.
    + split; [reflexivity|]. split; [reflexivity|].
      split; [intros [? [=]]|].
      split; [intros [? [=]]|]. intros _. split; reflexivity.
Qed.

Lemma tryRecoverRegistration_effects_witness :
  exists reg err w',
    tryRecoverRegistration demo (ctx demo_storage) (Some (RSAKey "A"))
      orphan_world = (Ok (reg, err), w')
    /\ kv w' = kv orphan_world
    /\ err = None.
Proof.
  destruct (tryRecoverRegistration_effects demo (ctx demo_storage)
              (Some (RSAKey "A")) orphan_world)
    as (reg & err & w' & H1 & H2 & _ & _ & _ & H3).
  exists reg, err, w'. split; [exact H1|]. split; [exact H2|].
  destruct (H3 eq_refl) as [_ ->]. reflexivity.
Defined.

(** X18: apart from the client, [Save] reports its failures to the caller
    instead of ending the process: a marshalling error is returned before
    any write is tried, a write error is returned with the store as before. *)
Theorem Save_returns_errors (X : Externals) (s : AccountsStorage)
    (a : Account) (w : world) (json : string) (e : error) :
  client_Get X = None ->
  (json_MarshalAccount X a = (json, Some e) ->
     Save X s a w = (Ok (Some e), w))
  /\ (json_MarshalAccount X a = (json, None) ->
      write_fails X (accountPath (Email a)) = Some e ->
      Save X s a w =
        (Ok (Some e),
         {| kv := kv w; draws := draws w;
            trace := trace w
                       ++ [EvWrite (accountPath (Email a)) (wrapped json)] |})).
Proof.
  intros Hc. unfold Save. rewrite Hc. split.
  - intros ->. reflexivity.
  - intros -> Hw. unfold_M. simpl. rewrite Hw. reflexivity.
Qed.

Lemma Save_returns_errors_witness :
  Save demo_accounts_down demo_storage demo_account empty_world =
    (Ok (Some "permission denied"),
     {| kv := ∅; draws := 0;
        trace := [EvWrite (accountPath "hubert@hubert.com")
                    (wrapped (demo_MarshalAccount demo_account).1)] |}).
Proof.
  apply (proj2 (Save_returns_errors demo_accounts_down demo_storage
                  demo_account empty_world _ "permission denied" eq_refl));
    reflexivity.
Defined.

(** X19: whatever the collaborators answer, [LoadAccount] draws no key and
    changes the store at account paths only: private keys and the entries of
    the certificates storage are as before. *)
Theorem LoadAccount_frame (X : Externals) (s : AccountsStorage)
    (pk : option PrivateKey) (w : world) :
  draws (LoadAccount X s pk w).2 = draws w
  /\ (forall p, (forall u, p <> accountPath u) ->
        kv (LoadAccount X s pk w).2 !! p = kv w !! p)
  /\ (forall u, kv (LoadAccount X s pk w).2 !! privateKeyPath u
                  = kv w !! privateKeyPath u).
Proof.
  assert (draws (LoadAccount X s pk w).2 = draws w
          /\ forall p, (forall u, p <> accountPath u) ->
               kv (LoadAccount X s pk w).2 !! p = kv w !! p) as [Hd Hp].
  { unfold LoadAccount, tryRecoverRegistration, Save.
    destruct (client_Get X); [split; reflexivity|].
    unfold_M. simpl. destruct (read_fails X _); [split; reflexivity|]. simpl.
    destruct (kv w !! accountPath (userID s)) as [payload|];
      [|split; reflexivity]. simpl.
    destruct (assert_map _) as [d|]; [|split; reflexivity].
    destruct (assert_string _) as [js|]; [|split; reflexivity].
    destruct (json_UnmarshalAccount X js) as [a [e|]]; [split; reflexivity|].
    destruct (registration_missing _); [|split; reflexivity]. simpl.
    destruct (lego_NewClient X _); [split; reflexivity|]. simpl.
    destruct (ResolveAccountByKey X _) as [reg [e|]]; [split; reflexivity|].
    simpl.
    destruct (json_MarshalAccount X _) as [json [e|]]; [split; reflexivity|].
    simpl. destruct (write_fails X _); [split; reflexivity|]. simpl.
    split; [reflexivity|]. intros p Hp. apply lookup_insert_ne.
    intros E. exact (Hp _ (eq_sym E)). }
  split; [exact Hd|]. split; [exact Hp|].
  intros u. apply Hp. intros u' E. symmetry in E.
  exact (accountPath_privateKeyPath _ _ E).
Qed.

(** ** The responder: canonical paths *)

Lemma append_nil_r (a : string) : a +:+ "" = a.
Proof.
  induction a as [|c a IH]; [reflexivity|].
  change (String c a +:+ "") with (String c (a +:+ "")). rewrite IH.
  reflexivity.
Qed.

Lemma list_ascii_of_string_app (a b : string) :
  list_ascii_of_string (a +:+ b)
    = (list_ascii_of_string a ++ list_ascii_of_string b)%list.
Proof.
  induction a as [|c a IH]; [reflexivity|].
  change (String c a +:+ b) with (String c (a +:+ b)). simpl. rewrite IH.
  reflexivity.
Qed.

Lemma split_slash_plain (a : string) :
  contains_byte "/" a = false -> split_slash a = [a].
Proof.
  unfold contains_byte. induction a as [|c a IH]; simpl; [reflexivity|].
  intros H. apply orb_false_iff in H as [Hc Ha].
  rewrite Hc, (IH Ha). reflexivity.
Qed.

Lemma split_slash_app (a rest : string) :
  contains_byte "/" a = false ->
  split_slash (a +:+ String "/" rest) = a :: split_slash rest.
Proof.
  unfold contains_byte. induction a as [|c a IH]; simpl.
  - intros _. reflexivity.
  - intros H. apply orb_false_iff in H as [Hc Ha].
    change (String c a +:+ String "/" rest)
      with (String c (a +:+ String "/" rest)).
    simpl. rewrite Hc, (IH Ha). reflexivity.
Qed.

Lemma ends_in_slash_plain (a token : string) :
  contains_byte "/" token = false -> token <> "" ->
  ends_in_slash (a +:+ token) = false.
Proof.
  intros Hno Hne. unfold ends_in_slash.
  rewrite list_ascii_of_string_app, rev_app_distr.
  destruct (rev (list_ascii_of_string token)) as [|c l] eqn:E.
  - destruct token; [contradiction|]. simpl in E.
    destruct (rev (list_ascii_of_string token)); discriminate E.
  - simpl. apply bool_decide_eq_false. intros ->.
    assert (In "/"%char (list_ascii_of_string token)) as Hin.
    { apply in_rev. rewrite E. left. reflexivity. }
    unfold contains_byte in Hno.
    assert (existsb (fun x => bool_decide (x = "/"%char))
              (list_ascii_of_string token) = true) as Hex.
    { apply existsb_exists. exists "/"%char. split; [exact Hin|].
      apply bool_decide_eq_true. reflexivity. }
    congruence.
Qed.

Example cleanPath_examples :
  map cleanPath [""; "//x"; "/a/../b"; "/a//b/"; "a"; "/../a"]
    = ["/"; "/x"; "/b"; "/a/b/"; "/a"; "/a"].
Proof. reflexivity. Qed.

Example base64_examples :
  map base64_encode ["M"; "Ma"; "Man"; "CERT"]
    = ["TQ=="; "TWE="; "TWFu"; "Q0VSVA=="].
Proof. reflexivity. Qed.

(** A path that is not clean is answered with a redirect to the clean one,
    before any handler sees the request. *)
Example unclean_path_redirected :
  status (ServeHTTP (mux demo_serving)
            {| Host := "example.com"; Method := "GET";
               URL_Path := "/.well-known//acme-challenge/tok1" |} (fresh None))
    = 301.
Proof. reflexivity. Qed.

(** The challenge path of a plain token is canonical: the mux serves it as
    it is. *)
Lemma ChallengePath_canonical (token : string) :
  plain_token token = true ->
  cleanPath (ChallengePath token) = ChallengePath token.
Proof.
  unfold plain_token. intros H.
  apply andb_true_iff in H as [H Hdd]. apply andb_true_iff in H as [H Hd].
  apply andb_true_iff in H as [Hno He].
  apply negb_true_iff in Hno, He, Hd, Hdd.
  apply bool_decide_eq_false in He, Hd, Hdd.
  assert (path_Clean (ChallengePath token) = ChallengePath token) as Hclean.
  { unfold path_Clean, ChallengePath.
    change ("/.well-known/acme-challenge/" +:+ token)
      with ("" +:+ String "/" (".well-known" +:+ String "/"
              ("acme-challenge" +:+ String "/" token))).
    rewrite !split_slash_app by reflexivity.
    rewrite (split_slash_plain token Hno). simpl.
    destruct (decide (token = "")); [contradiction|].
    destruct (decide (token = ".")); [contradiction|].
    destruct (decide (token = "..")); [contradiction|].
    simpl. rewrite append_nil_r. reflexivity. }
  unfold cleanPath.
  destruct (decide (ChallengePath token = "")) as [E|_];
    [vm_compute in E; discriminate E|].
  replace (String.prefix "/" (ChallengePath token)) with true by reflexivity.
  rewrite Hclean.
  unfold ChallengePath at 1. rewrite (ends_in_slash_plain _ token Hno He).
  reflexivity.
Qed.

(** ** The responder: routing *)

Lemma prefix_app (d x : string) : String.prefix d (d +:+ x) = true.
Proof.
  induction d as [|a d IH]; simpl.
  - destruct x; reflexivity.
  - destruct (ascii_dec a a) as [_|N]; [exact IH|contradiction].
Qed.

(** X20: the Host check is a prefix test. Once [serve] has registered the
    challenge, a GET for the challenge path (a canonical path, as that of
    every plain token is) whose Host header is the domain followed by
    anything at all (a port, or a longer foreign name) is answered with the
    key authorization. *)
Theorem challenge_host_prefix (s s' : ProviderServer)
    (domain token keyAuth suffix : string) (r : Request) :
  serve s domain token keyAuth = Ok s' ->
  URL_Path r = ChallengePath token ->
  cleanPath (ChallengePath token) = ChallengePath token ->
  Method r = "GET" ->
  Host r = domain +:+ suffix ->
  status (ServeHTTP (mux s') r (fresh None)) = 200
  /\ body (ServeHTTP (mux s') r (fresh None)) = keyAuth.
Proof.
  intros Hs Hp Hc Hm Hh.
  rewrite (serve_routes _ _ _ _ _ r _ Hs Hp Hc). split.
  - apply challenge_handler_status.
  - rewrite challenge_handler_body, Hh, prefix_app, Hm. reflexivity.
Qed.

Lemma challenge_host_prefix_witness :
  status (ServeHTTP (mux demo_serving)
            {| Host := "example.com.evil.org"; Method := "GET";
               URL_Path := "/.well-known/acme-challenge/tok1" |} (fresh None))
    = 200
  /\ body (ServeHTTP (mux demo_serving)
             {| Host := "example.com.evil.org"; Method := "GET";
                URL_Path := "/.well-known/acme-challenge/tok1" |} (fresh None))
       = "key1".
Proof.
  apply (challenge_host_prefix demo_idle demo_serving "example.com" "tok1"
           "key1" ".evil.org"
           {| Host := "example.com.evil.org"; Method := "GET";
              URL_Path := "/.well-known/acme-challenge/tok1" |});
    reflexivity.
Defined.

(** X21: a token can be registered once. After a successful [serve], a
    [serve] for the same token, for whatever domain and key authorization,
    panics in the mux with "multiple registrations". *)
Theorem serve_twice_panics (s s' : ProviderServer)
    (domain token keyAuth domain' keyAuth' : string) :
  serve s domain token keyAuth = Ok s' ->
  serve s' domain' token keyAuth'
    = Panic ("http: multiple registrations for " +:+ ChallengePath token).
Proof.
  unfold serve, mux_HandleFunc.
  destruct (decide (ChallengePath token = "")); [discriminate|].
  destruct (mux s !! ChallengePath token); [discriminate|].
  intros [= <-]. simpl. rewrite lookup_insert_eq. reflexivity.
Qed.

Lemma serve_twice_panics_witness :
  serve demo_serving "www.example.com" "tok1" "key2"
    = Panic ("http: multiple registrations for " +:+ ChallengePath "tok1").
Proof.
  apply (serve_twice_panics demo_idle demo_serving "example.com" "tok1" "key1"
           "www.example.com" "key2").
  reflexivity.
Defined.

Lemma LoadAccount_frame_witness :
  kv (LoadAccount demo demo_storage (Some (RSAKey "A")) orphan_world).2
    !! privateKeyPath "hubert@hubert.com"
  = kv orphan_world !! privateKeyPath "hubert@hubert.com".
Proof.
  apply (proj2 (proj2 (LoadAccount_frame demo demo_storage (Some (RSAKey "A"))
                         orphan_world))).
Defined.

(** The mux of a constructed responder holds the root handler only. *)
Lemma NewProviderServer_mux (net_Listen : string -> option error)
    (ifc prt : string) (s : ProviderServer) :
  NewProviderServer net_Listen ifc prt = Ok s ->
  mux s = {["/" := root_handler]}.
Proof.
  unfold NewProviderServer, mux_HandleFunc. simpl.
  destruct (net_Listen _); [discriminate|]. simpl.
  rewrite lookup_empty. intros [= <-]. reflexivity.
Qed.

Lemma root_handler_OK (r : Request) :
  Method r <> "HEAD" ->
  status (root_handler r (response_to r (fresh None))) = 200
  /\ body (root_handler r (response_to r (fresh None))) = "OK".
Proof.
  intros Hm. unfold root_handler, response_to, Write, WriteHeader. simpl.
  rewrite (bool_decide_eq_false_2 _ Hm). split; reflexivity.
Qed.

Lemma prefix_nil (p : string) : String.prefix "" p = true.
Proof. destruct p; reflexivity. Qed.

Lemma prefix_slash_app (a b : string) :
  String.prefix "/" a = true -> String.prefix "/" (a +:+ b) = true.
Proof.
  destruct a as [|c a]; [discriminate|].
  change (String c a +:+ b) with (String c (a +:+ b)).
  change (String.prefix "/" (String c a))
    with (match ascii_dec "/" c with
          | left _ => String.prefix "" a
          | right _ => false
          end).
  change (String.prefix "/" (String c (a +:+ b)))
    with (match ascii_dec "/" c with
          | left _ => String.prefix "" (a +:+ b)
          | right _ => false
          end).
  destruct (ascii_dec "/" c); [|discriminate]. intros _. apply prefix_nil.
Qed.

(** A cleaned path starts with a slash. *)
Lemma cleanPath_rooted (p : string) : String.prefix "/" (cleanPath p) = true.
Proof.
  assert (forall q, String.prefix "/" (path_Clean q) = true) as Hclean.
  { intros q. unfold path_Clean.
    destruct (rev (clean_elements (split_slash q) [])) as [|e l];
      [reflexivity|].
    simpl. apply (prefix_slash_app "/"). reflexivity. }
  unfold cleanPath. destruct (decide (p = "")); [reflexivity|].
  assert (String.prefix "/" (if String.prefix "/" p then p else "/" +:+ p)
          = true) as Hp.
  { destruct (String.prefix "/" p) eqn:E; [exact E|].
    apply (prefix_slash_app "/"). reflexivity. }
  destruct (ends_in_slash _ && _); [|apply Hclean].
  destruct (_ && _); [exact Hp|].
  apply prefix_slash_app. apply Hclean.
Qed.

Lemma app_slash_not_root (p : string) : p <> "" -> p +:+ "/" <> "/".
Proof.
  destruct p as [|c p]; [contradiction|]. intros _.
  change (String c p +:+ "/") with (String c (p +:+ "/")).
  destruct p; intros [=].
Qed.

(** X22: [Present] by itself leaves the mux as the constructor made it, and
    a constructed responder answers every request with a canonical path,
    other than a HEAD request, with status 200 and the body OK: until the
    goroutine running [serve] has registered the route, a GET for the
    challenge path gets OK and not the key authorization. *)
Theorem Present_registers_nothing (net_Listen : string -> option error)
    (ifc prt : string) (s : ProviderServer) (domain token keyAuth : string)
    (r : Request) :
  NewProviderServer net_Listen ifc prt = Ok s ->
  cleanPath (URL_Path r) = URL_Path r ->
  Method r <> "HEAD" ->
  mux (Present s domain token keyAuth) = mux s
  /\ status (ServeHTTP (mux (Present s domain token keyAuth)) r (fresh None))
       = 200
  /\ body (ServeHTTP (mux (Present s domain token keyAuth)) r (fresh None))
       = "OK".
Proof.
  intros Hnew Hclean Hm.
  assert (mux (Present s domain token keyAuth) = mux s) as Hmux.
  { unfold Present. destruct (decide (port s = "")); reflexivity. }
  split; [exact Hmux|]. rewrite Hmux, (NewProviderServer_mux _ _ _ _ Hnew).
  pose proof (cleanPath_rooted (URL_Path r)) as Hroot. rewrite Hclean in Hroot.
  assert (URL_Path r <> "") as Hne.
  { intros E. rewrite E in Hroot. discriminate Hroot. }
  assert (shouldRedirect {["/" := root_handler]} (URL_Path r) = false) as Hno.
  { unfold shouldRedirect.
    destruct (({["/" := root_handler]} : gmap string HandlerFunc)
                !! URL_Path r); [reflexivity|].
    destruct (decide (URL_Path r = "")); [reflexivity|].
    rewrite lookup_singleton_ne; [reflexivity|].
    intros E. symmetry in E. exact (app_slash_not_root _ Hne E). }
  assert (mux_handler {["/" := root_handler]} (URL_Path r) = root_handler)
    as Hroute.
  { unfold mux_handler.
    destruct (decide ("/" = URL_Path r)) as [<-|Hd].
    - rewrite lookup_singleton_eq. reflexivity.
    - rewrite lookup_singleton_ne by exact Hd.
      rewrite map_fold_singleton. unfold better.
      replace (ends_in_slash "/") with true by reflexivity.
      rewrite Hroot. reflexivity. }
  assert (ServeHTTP {["/" := root_handler]} r (fresh None)
          = root_handler r (response_to r (fresh None))) as ->.
  { unfold ServeHTTP.
    destruct (decide (URL_Path r = "*")) as [E|_].
    { rewrite E in Hroot. discriminate Hroot. }
    unfold mux_Handler. rewrite Hclean, Hno, Hroute.
    destruct (decide (Method r = "CONNECT")); [reflexivity|].
    destruct (decide (URL_Path r = URL_Path r)); [reflexivity|contradiction]. }
  apply root_handler_OK. exact Hm.
Qed.

Lemma Present_registers_nothing_witness :
  body (ServeHTTP (mux (Present demo_unset "example.com" "tok1" "key1"))
          {| Host := "example.com"; Method := "GET";
             URL_Path := ChallengePath "tok1" |} (fresh None)) = "OK".
Proof.
  apply (Present_registers_nothing (fun _ => None) "" "" demo_unset
           "example.com" "tok1" "key1"
           {| Host := "example.com"; Method := "GET";
              URL_Path := ChallengePath "tok1" |});
    [reflexivity|reflexivity|discriminate].
Defined.

Lemma prefix_same_length (a b s : string) :
  String.prefix a s = true -> String.prefix b s = true ->
  String.length a = String.length b -> a = b.
Proof.
  revert b s. induction a as [|x a IH]; intros [|y b] [|z s]; simpl;
    try discriminate; try reflexivity.
  destruct (ascii_dec x z) as [->|]; [|discriminate].
  destruct (ascii_dec y z) as [->|]; [|discriminate].
  intros Ha Hb [= Hl]. f_equal. exact (IH b s Ha Hb Hl).
Qed.

(** The order in which two distinct patterns are tried does not matter: of
    two patterns that match the same path one is strictly longer. *)
Lemma better_comm (path j1 j2 : string) (h1 h2 : HandlerFunc)
    (y : option (string * HandlerFunc)) :
  j1 <> j2 ->
  better path j1 h1 (better path j2 h2 y)
    = better path j2 h2 (better path j1 h1 y).
Proof.
  intros Hne. unfold better.
  destruct (ends_in_slash j1 && String.prefix j1 path) eqn:E1;
    destruct (ends_in_slash j2 && String.prefix j2 path) eqn:E2;
    try reflexivity.
  apply andb_true_iff in E1 as [_ P1]. apply andb_true_iff in E2 as [_ P2].
  assert (String.length j1 <> String.length j2) as Hlen.
  { intros E. apply Hne. exact (prefix_same_length _ _ _ P1 P2 E). }
  destruct y as [[p h]|]; simpl.
  - destruct (Nat.ltb_spec (String.length p) (String.length j2));
      destruct (Nat.ltb_spec (String.length p) (String.length j1)); simpl;
      repeat match goal with
             | |- context [Nat.ltb ?a ?b] => destruct (Nat.ltb_spec a b)
             end; try reflexivity; lia.
  - destruct (Nat.ltb_spec (String.length j2) (String.length j1));
      destruct (Nat.ltb_spec (String.length j1) (String.length j2));
      try reflexivity; lia.
Qed.

Lemma ends_in_slash_app_slash (p : string) : ends_in_slash (p +:+ "/") = true.
Proof.
  unfold ends_in_slash. rewrite list_ascii_of_string_app, rev_app_distr.
  reflexivity.
Qed.

(** X23: [serve] adds one route and disturbs no other. For a challenge path
    that does not end in a slash (that of every plain token), every request
    whose path, as sent and once cleaned, is not the challenge path gets the
    same answer from the mux as before the registration. *)
Theorem serve_keeps_other_routes (s s' : ProviderServer)
    (domain token keyAuth : string) (r : Request) :
  serve s domain token keyAuth = Ok s' ->
  ends_in_slash (ChallengePath token) = false ->
  URL_Path r <> ChallengePath token ->
  cleanPath (URL_Path r) <> ChallengePath token ->
  forall w, ServeHTTP (mux s') r w = ServeHTTP (mux s) r w.
Proof.
  unfold serve, mux_HandleFunc.
  destruct (decide (ChallengePath token = "")); [discriminate|].
  destruct (mux s !! ChallengePath token) eqn:E; [discriminate|].
  intros [= <-] Hslash Hraw Hclean w. simpl.
  set (h := challenge_handler domain keyAuth).
  assert (forall p, p <> ChallengePath token ->
            shouldRedirect (<[ChallengePath token := h]> (mux s)) p
            = shouldRedirect (mux s) p) as Hred.
  { intros p Hp. unfold shouldRedirect.
    rewrite lookup_insert_ne by congruence.
    rewrite (lookup_insert_ne _ _ (p +:+ "/")); [reflexivity|].
    intros Eq. pose proof (ends_in_slash_app_slash p) as Hs.
    rewrite <- Eq in Hs. congruence. }
  assert (forall p, p <> ChallengePath token ->
            mux_handler (<[ChallengePath token := h]> (mux s)) p
            = mux_handler (mux s) p) as Hh.
  { intros p Hp. unfold mux_handler.
    rewrite lookup_insert_ne by congruence.
    destruct (mux s !! p); [reflexivity|].
    rewrite map_fold_insert_L.
    - unfold better at 1. rewrite Hslash. reflexivity.
    - intros j1 j2 z1 z2 y Hj _ _. apply better_comm. exact Hj.
    - exact E. }
  unfold ServeHTTP, mux_Handler.
  rewrite (Hred _ Hraw), (Hred _ Hclean), (Hh _ Hraw). reflexivity.
Qed.

Lemma serve_keeps_other_routes_witness :
  ServeHTTP (mux demo_serving)
    {| Host := "example.com"; Method := "GET";
       URL_Path := "/.well-known/acme-challenge/tok2" |} (fresh None)
  = ServeHTTP (mux demo_idle)
      {| Host := "example.com"; Method := "GET";
         URL_Path := "/.well-known/acme-challenge/tok2" |} (fresh None).
Proof.
  apply (serve_keeps_other_routes demo_idle demo_serving "example.com" "tok1"
           "key1"
           {| Host := "example.com"; Method := "GET";
              URL_Path := "/.well-known/acme-challenge/tok2" |}).
  - reflexivity.
  - reflexivity.
  - vm_compute. discriminate.
  - vm_compute. discriminate.
Defined.

(** ** The responder: more on CleanUp *)

Lemma step_closed (a : action) (t t' : threads) :
  is_closed (lst t) = true -> step a t = Some t' ->
  is_closed (lst t') = true /\ accepted t' = accepted t
  /\ served t <= served t'.
Proof.
  destruct t as [[[addr cl]|] g c p n]; unfold accepted; simpl;
    [|discriminate].
  intros ->. destruct a, g, c, p; simpl; try discriminate;
    intros [= <-]; simpl; repeat split; lia.
Qed.

Lemma run_closed (acts : list action) (t t' : threads) :
  is_closed (lst t) = true -> run acts t = Some t' ->
  is_closed (lst t') = true /\ accepted t' = accepted t
  /\ served t <= served t'.
Proof.
  revert t. induction acts as [|a acts IH]; simpl; intros t Hcl.
  - intros [= <-]. split; [exact Hcl|]. split; [reflexivity|lia].
  - destruct (step a t) as [t1|] eqn:E; [|discriminate].
    destruct (step_closed a t t1 Hcl E) as (Hcl1 & Ha1 & Hs1).
    intros Hrun. destruct (IH t1 Hcl1 Hrun) as (H1 & H2 & H3).
    split; [exact H1|]. split; [congruence|lia].
Qed.

(** X24: from the moment [CleanUp] has closed the listener, before it has
    returned and whatever the threads do next, the listener stays closed and
    no further connection is accepted; the requests still answered are those
    of connections accepted before the close. *)
Theorem Close_stops_accepting (t t1 t' : threads) (acts : list action) :
  step ACleanUpClose t = Some t1 ->
  run acts t1 = Some t' ->
  is_closed (lst t') = true
  /\ accepted t' = accepted t
  /\ served t <= served t' <= served t + pending t.
Proof.
  intros Hstep Hrun.
  assert (is_closed (lst t1) = true /\ accepted t1 = accepted t
          /\ served t1 = served t) as (Hcl & Ha & Hs).
  { destruct t as [[[addr cl]|] g c p n]; destruct g, c; simpl in Hstep;
      try discriminate; injection Hstep as <-; auto. }
  destruct (run_closed acts t1 t' Hcl Hrun) as (H1 & H2 & H3).
  split; [exact H1|]. split; [congruence|].
  unfold accepted in *. lia.
Qed.

Lemma Close_stops_accepting_witness :
  is_closed (lst demo_draining) = true
  /\ accepted demo_draining = 1
  /\ 0 <= served demo_draining <= 1.
Proof.
  apply (Close_stops_accepting
           {| lst := listener demo_idle; goroutine := Serving;
              caller := AtClose; pending := 1; served := 0 |}
           {| lst := Some {| laddr := "127.0.0.1:5002"; closed := true |};
              goroutine := Serving; caller := AtRecv;
              pending := 1; served := 0 |}
           demo_draining [AAnswer; AServeClosed]); reflexivity.
Defined.

Lemma step_waiting (a : action) (t t' : threads) :
  goroutine t = Exited -> waiting t = true -> step a t = Some t' ->
  goroutine t' = Exited /\ waiting t' = true.
Proof.
  destruct t as [l g c p n]. unfold waiting. simpl. intros ->.
  destruct a, c, l, p; simpl; try discriminate; intros _ [= <-]; auto.
Qed.

Lemma run_waiting (acts : list action) (t t' : threads) :
  goroutine t = Exited -> waiting t = true -> run acts t = Some t' ->
  waiting t' = true.
Proof.
  revert t. induction acts as [|a acts IH]; simpl; intros t Hex Hw.
  - intros [= <-]. exact Hw.
  - destruct (step a t) as [t1|] eqn:E; [|discriminate].
    destruct (step_waiting a t t1 Hex Hw E) as [Hex1 Hw1].
    apply IH; assumption.
Qed.

(** X25: [done] is signalled once. On a constructed responder, a call of
    [CleanUp] made after an earlier call has returned never returns: it
    closes the closed listener again and then waits on [done] for a
    goroutine that has exited. *)
Theorem CleanUp_second_call_blocks (s : ProviderServer)
    (acts acts' : list action) (t t' : threads) :
  is_Some (listener s) ->
  run acts (started s) = Some t ->
  caller t = Returned ->
  run (ACleanUpCall :: acts') t = Some t' ->
  caller t' <> Returned.
Proof.
  intros [l E] Hrun Hret Hrun'.
  assert (handshake_inv (started s) = true) as H0.
  { unfold started. rewrite E. reflexivity. }
  pose proof (run_handshake_inv acts _ _ H0 Hrun) as Hinv.
  cbn [run] in Hrun'. destruct (step ACleanUpCall t) as [t1|] eqn:E1;
    [|discriminate].
  assert (goroutine t1 = Exited /\ waiting t1 = true) as [Hex Hw].
  { destruct t as [[[addr cl]|] g c p n]; [|discriminate].
    simpl in Hret. subst c. destruct g, cl; try discriminate.
    simpl in E1. injection E1 as <-. auto. }
  pose proof (run_waiting acts' t1 t' Hex Hw Hrun') as Hw'.
  unfold waiting in Hw'. intros Hc. rewrite Hc in Hw'. discriminate.
Qed.

Lemma CleanUp_second_call_blocks_witness :
  caller demo_stuck <> Returned.
Proof.
  apply (CleanUp_second_call_blocks demo_idle
           [AAccept; ACleanUpCall; ACleanUpClose; AServeClosed; ADone]
           [ACleanUpClose] demo_stopped demo_stuck).
  - exists {| laddr := "127.0.0.1:5002"; closed := false |}. reflexivity.
  - reflexivity.
  - reflexivity.
  - reflexivity.
Defined.

Ltac try_schedule acts :=
  exists acts; eexists; split; [reflexivity|split; [reflexivity|simpl; lia]].

(** X26: the first [CleanUp] is never stuck for good. On a constructed
    responder, from every state the threads can reach in which the serving
    goroutine has not exited, at most four steps lead to a state in which
    [CleanUp] has returned. *)
Theorem CleanUp_can_return (s : ProviderServer) (acts : list action)
    (t : threads) :
  is_Some (listener s) ->
  run acts (started s) = Some t ->
  goroutine t <> Exited ->
  exists acts' t',
    run acts' t = Some t' /\ caller t' = Returned /\ length acts' <= 4.
Proof.
  intros [l E] Hrun Hex.
  assert (handshake_inv (started s) = true) as H0.
  { unfold started. rewrite E. reflexivity. }
  pose proof (run_handshake_inv acts _ _ H0 Hrun) as Hinv.
  destruct t as [[[addr cl]|] g c p n]; [|discriminate].
  destruct g, c, cl; simpl in Hinv, Hex; try discriminate;
    try contradiction;
    first [ try_schedule [ADone]
          | try_schedule [AServeClosed; ADone]
          | try_schedule [ACleanUpClose; ADone]
          | try_schedule [ACleanUpClose; AServeClosed; ADone]
          | try_schedule [ACleanUpCall; ACleanUpClose; ADone]
          | try_schedule [ACleanUpCall; ACleanUpClose; AServeClosed; ADone] ].
Qed.

Lemma CleanUp_can_return_witness :
  exists acts' t',
    run acts' (started demo_idle) = Some t'
    /\ caller t' = Returned /\ length acts' <= 4.
Proof.
  apply (CleanUp_can_return demo_idle [] (started demo_idle)).
  - exists {| laddr := "127.0.0.1:5002"; closed := false |}. reflexivity.
  - reflexivity.
  - simpl. discriminate.
Defined.
